(** * Verification of the BingHome dashboard hub (app.py, core/weather.py,
      core/google_photos.py, voice_assistant.py)

    Shallow embedding of the settings store, the sensor reader, the weather
    service, the Google Photos request wrapper and the voice handlers. *)

From Stdlib Require Import QArith Lia Lqa Ascii.
From stdpp Require Import base gmap strings list fin_maps.

Open Scope string_scope.
#[local] Set Warnings "-register-all".

(* ------------------------------------------------------------------ *)
(** ** JSON values as Python's [json] module produces them *)

Module Json.

(** A parsed JSON document: objects keep their pairs in file order. *)
Inductive json :=
| JNull
| JBool (b : bool)
| JNum (q : Q)
| JStr (s : string)
| JArr (l : list json)
| JObj (l : list (string * json)).

(** Python truthiness of a JSON value ([if value:]). *)
Definition truthy (v : json) : bool :=
  match v with
  | JNull => false
  | JBool b => b
  | JNum q => negb (Qeq_bool q 0)
  | JStr s => match s with EmptyString => false | _ => true end
  | JArr l => match l with [] => false | _ => true end
  | JObj l => match l with [] => false | _ => true end
  end.

(** [dict(pairs)] / [json.load] of an object: a later duplicate key wins. *)
Definition dict_of_pairs (l : list (string * json)) : gmap string json :=
  fold_left (fun m kv => <[kv.1 := kv.2]> m) l ∅.

(** Python's [needle in hay] for two strings (substring test). *)
Fixpoint str_contains (needle hay : string) : bool :=
  String.prefix needle hay ||
  match hay with
  | EmptyString => false
  | String _ t => str_contains needle t
  end.

End Json.

Import Json.

(* ------------------------------------------------------------------ *)
(** ** Settings store: [BingHomeHub.load_settings] / [save_settings] *)

Module Settings.

Definition app_entry (url : string) : json :=
  JObj [("enabled", JBool true); ("url", JStr url)].

(** The [default_settings] literal of [load_settings], in source order. *)
Definition default_settings_pairs : list (string * json) :=
  [("temp_offset", JNum 0);
   ("google_photos_connected", JBool false);
   ("google_photos_access_token", JStr "");
   ("google_photos_refresh_token", JStr "");
   ("google_photos_album", JStr "");
   ("google_photos_interval", JNum 10);
   ("voice_provider", JStr "local");
   ("voice_enabled", JBool true);
   ("wake_words", JArr [JStr "hey bing"; JStr "okay bing"]);
   ("weather_source", JStr "openweather");
   ("weather_location", JStr "Gold Coast, QLD");
   ("weather_api_key", JStr "");
   ("openai_api_key", JStr "");
   ("bing_api_key", JStr "");
   ("home_assistant_url", JStr "http://localhost:8123");
   ("home_assistant_token", JStr "");
   ("kiosk_mode", JBool false);
   ("auto_start_browser", JBool false);
   ("display_timeout", JNum 0);
   ("apps", JObj
      [("netflix", app_entry "https://www.netflix.com");
       ("prime_video", app_entry "https://www.primevideo.com");
       ("youtube", app_entry "https://www.youtube.com/tv");
       ("disney_plus", app_entry "https://www.disneyplus.com");
       ("xbox_cloud", app_entry "https://www.xbox.com/play");
       ("steam", app_entry "https://store.steampowered.com");
       ("spotify", app_entry "https://open.spotify.com");
       ("apple_music", app_entry "https://music.apple.com");
       ("google_photos", app_entry "https://photos.google.com")]);
   ("gpio_pins", JObj
      [("dht22", JNum 4); ("gas_sensor", JNum 17); ("light_sensor", JNum 27)])].

Definition default_keys : list string := default_settings_pairs.*1.

Definition default_settings : gmap string json :=
  dict_of_pairs default_settings_pairs.

(** The config file: [None] when it does not exist; [Some None] when
    reading or [json.load] fails; [Some (Some v)] when it parses to [v]. *)
Abbreviation config_file := (option (option json)).

(** What [load_settings] returns: a dict, or (for a file holding a JSON
    list or string that passes the merge loop untouched) another value. *)
Inductive loaded :=
| LDict (d : gmap string json)
| LOther (v : json).

(** The merge loop on a dict:
    [for key, value in default_settings.items(): if key not in settings:
       settings[key] = value]. *)
Definition default_merge_step (m : gmap string json) (kv : string * json)
  : gmap string json :=
  match m !! kv.1 with
  | None => <[kv.1 := kv.2]> m
  | Some _ => m
  end.

Definition merge_defaults (d : gmap string json) : gmap string json :=
  fold_left default_merge_step default_settings_pairs d.

Definition load_settings (f : config_file) : loaded :=
  match f with
  | Some (Some (JObj l)) => LDict (merge_defaults (dict_of_pairs l))
  | Some (Some (JArr l)) =>
      (* [key not in list] holds for a missing key, and then
         [settings[key] = value] raises TypeError, caught: defaults *)
      if forallb (fun k => existsb (fun x => match x with
                                             | JStr s => String.eqb s k
                                             | _ => false end) l) default_keys
      then LOther (JArr l) else LDict default_settings
  | Some (Some (JStr s)) =>
      if forallb (fun k => str_contains k s) default_keys
      then LOther (JStr s) else LDict default_settings
  | _ =>
      (* missing file, unreadable file, or [in] on a non-container
         raising TypeError: all end in [return default_settings] *)
      LDict default_settings
  end.

(** What the I/O of [save_settings] does: [open] and [json.dump] succeed,
    [open] fails (file untouched), or the dump fails after truncation. *)
Inductive save_io := SaveOk | SaveOpenFails | SaveDumpFails.

Record hub := mk_hub {
  settings : gmap string json;
  config : config_file
}.

(** [json.dump(settings, f)] writes the object with the dict's pairs. *)
Definition dump (s : gmap string json) : json := JObj (map_to_list s).

Definition save_settings (h : hub) (s : gmap string json) (io : save_io)
  : bool * hub :=
  match io with
  | SaveOk => (true, mk_hub s (Some (Some (dump s))))
  | SaveOpenFails => (false, h)
  | SaveDumpFails => (false, mk_hub (settings h) (Some None))
  end.

(** The keys [api_settings] hides on GET. *)
Definition sensitive_keys : list string :=
  ["openai_api_key"; "weather_api_key"; "bing_api_key";
   "home_assistant_token"; "google_photos_access_token";
   "google_photos_refresh_token"].

Definition configured_key (key : string) : string := key +:+ "_configured".

(** One iteration of the GET loop:
    [if key in safe_settings and safe_settings[key]:
       safe_settings[key + '_configured'] = True; safe_settings[key] = ''] *)
Definition hide_step (safe : gmap string json) (key : string)
  : gmap string json :=
  match safe !! key with
  | Some v => if truthy v
              then <[key := JStr ""]> (<[configured_key key := JBool true]> safe)
              else safe
  | None => safe
  end.

(** GET /api/settings: the response body. *)
Definition api_settings_get (s : gmap string json) : gmap string json :=
  fold_left hide_step sensitive_keys s.

(** The merge loop of POST /api/settings:
    [if value or key not in merged_settings: merged_settings[key] = value]. *)
Definition post_step (merged : gmap string json) (kv : string * json)
  : gmap string json :=
  if truthy kv.2 || bool_decide (merged !! kv.1 = None)
  then <[kv.1 := kv.2]> merged else merged.

Definition merge_post (old new : gmap string json) : gmap string json :=
  fold_left post_step (map_to_list new) old.

Inductive post_resp := PostSuccess | PostSaveFailed | PostError.

(** POST /api/settings; [body] is the JSON value [request.get_json()]
    parses, [None] when the request has no JSON body (not sent as
    application/json, or not valid JSON): then [get_json()] raises a
    [BadRequest] / [UnsupportedMediaType], which the [except Exception]
    turns into the error answer before anything is written. *)
Definition api_settings_post (h : hub) (body : option json) (io : save_io)
  : post_resp * hub :=
  match body with
  | None => (PostError, h)
  | Some v =>
      let new_dict := if truthy v
                      then match v with
                           | JObj l => Some (dict_of_pairs l)
                           | _ => None   (* [.items()] raises AttributeError *)
                           end
                      else Some ∅ in    (* [request.get_json() or {}] *)
      match new_dict with
      | None => (PostError, h)
      | Some nd =>
          let merged := merge_post (settings h) nd in
          match save_settings h merged io with
          | (true, h') => (PostSuccess, h')
          | (false, h') => (PostSaveFailed, h')
          end
      end
  end.

(** Two settings states that agree everywhere except on the sensitive
    keys, where each key holds equal values or truthy values in both. *)
Definition strip_secrets (s : gmap string json) : gmap string json :=
  foldr delete s sensitive_keys.

Definition both_truthy (o1 o2 : option json) : bool :=
  match o1, o2 with
  | Some v1, Some v2 => truthy v1 && truthy v2
  | _, _ => false
  end.

Definition differ_only_in_secrets (s1 s2 : gmap string json) : Prop :=
  strip_secrets s1 = strip_secrets s2 /\
  Forall (fun k => s1 !! k = s2 !! k \/ both_truthy (s1 !! k) (s2 !! k) = true)
    sensitive_keys.

(** The other writers of the settings: the OAuth callback, the disconnect
    route and the token refresh of the photo service all take
    [binghome.settings.copy()], overwrite some keys and call
    [save_settings]. *)
Definition save_copy_with (h : hub) (updates : list (string * json))
  (io : save_io) : hub :=
  (save_settings h (fold_left (fun m kv => <[kv.1 := kv.2]> m) updates
                      (settings h)) io).2.

(** Requests that change the settings state after startup. *)
Inductive settings_event :=
| EvPost (body : option json) (io : save_io)
| EvSaveCopy (updates : list (string * json)) (io : save_io).

Definition handle_event (h : hub) (e : settings_event) : hub :=
  match e with
  | EvPost body io => (api_settings_post h body io).2
  | EvSaveCopy ups io => save_copy_with h ups io
  end.

(** [BingHomeHub.__init__] loads the settings; the events follow. *)
Definition run_hub (d : gmap string json) (f : config_file)
  (evs : list settings_event) : hub :=
  fold_left handle_event evs (mk_hub d f).

End Settings.

(* ------------------------------------------------------------------ *)
(** ** Sensor reader: [BingHomeHub.read_sensors] *)

Module Sensors.

(** Python's [round(x, 1)] on the exact value of [x]: round half to even
    at the first decimal. *)
Definition round1 (x : Q) : Q :=
  let num := (10 * Qnum x)%Z in
  let den := Zpos (Qden x) in
  let n := (num / den)%Z in
  let rem := (num mod den)%Z in
  let k := match Z.compare (2 * rem) den with
           | Lt => n
           | Gt => (n + 1)%Z
           | Eq => if Z.even n then n else (n + 1)%Z
           end in
  k # 10.

(** [random.uniform(a, b)] is [a + (b - a) * random.random()]. *)
Definition uniform (a b u : Q) : Q := (a + (b - a) * u)%Q.

(** [random.choice(seq)] is [seq[randbelow(len(seq))]]; [None] stands for
    the IndexError an out-of-range index would raise. *)
Definition choice {A} (l : list A) (i : nat) : option A := l !! i.

(** The random draws one simulated reading consumes, in source order. *)
Record sim_draws := mk_draws {
  r_temp : Q;   (* random.random() inside uniform(-5, 15) *)
  r_hum : Q;    (* random.random() inside uniform(-10, 30) *)
  i_gas : nat;
  i_light : nat;
  i_air : nat
}.

(** What [random] can return: [random()] in [0, 1), [randbelow(n)] in
    [0, n). *)
Definition valid_draws (d : sim_draws) : Prop :=
  (0 <= r_temp d)%Q /\ (r_temp d < 1)%Q /\
  (0 <= r_hum d)%Q /\ (r_hum d < 1)%Q /\
  (i_gas d < 4)%nat /\ (i_light d < 3)%nat /\ (i_air d < 3)%nat.

Record reading := mk_reading {
  timestamp : string;
  temperature : option Q;
  humidity : option Q;
  gas_detected : bool;
  light_level : string;
  air_quality : string
}.

Definition initial_reading (now : string) : reading :=
  mk_reading now None None false "unknown" "good".

(** One access of [dht.temperature] / [dht.humidity] in an attempt. *)
Inductive dht_result :=
| DhtValues (t h : option Q)
| DhtRuntimeError
| DhtOtherError.

(** [GPIO.input(pin)]: a level or an exception. *)
Inductive pin_read :=
| PinLevel (v : Z)
| PinError.

(** [self.sensors] as [setup_hardware] fills it: the DHT22 object, the gas
    pin and the light pin (each key may be missing). *)
Record sensors_dict := mk_sensors {
  s_dht22 : bool;
  s_gas_pin : option Z;
  s_light_pin : option Z
}.

(** The hardware as the reader observes it during one call. *)
Record hw_inputs := mk_hw {
  dht_attempt : nat -> dht_result;
  gas_read : pin_read;
  light_read : pin_read
}.

Inductive hw_event :=
| ReadDht (attempt : nat)
| Sleep (secs : nat)
| ReadPin (pin : Z).

Definition max_retries : nat := 3.
Definition retry_delay : nat := 2.

(** [temperature + temp_offset] for a JSON offset: numbers and booleans
    add, anything else raises TypeError ([None]). *)
Definition add_offset (t : Q) (off : json) : option Q :=
  match off with
  | JNum q => Some (t + q)%Q
  | JBool b => Some (t + if b then 1 else 0)%Q
  | _ => None
  end.

(** The body of [for attempt in range(max_retries)]: [remaining] counts
    the iterations left; an exception inside the attempt is caught by the
    [except] clauses, which sleep unless this was the last attempt. *)
Fixpoint dht_loop (hw : hw_inputs) (off : json) (attempt remaining : nat)
  (data : reading) (tr : list hw_event) : reading * list hw_event :=
  match remaining with
  | O => (data, tr)
  | S r =>
      let tr := (tr ++ [ReadDht attempt])%list in
      let failed := (fun tr' =>
        dht_loop hw off (S attempt) r data
          (if Nat.ltb attempt (max_retries - 1)
           then (tr' ++ [Sleep retry_delay])%list else tr')) in
      match dht_attempt hw attempt with
      | DhtValues (Some t) (Some h) =>
          match add_offset t off with
          | Some t' =>
              (* assign both values and [break] *)
              (mk_reading (timestamp data) (Some (round1 t')) (Some (round1 h))
                 (gas_detected data) (light_level data) (air_quality data), tr)
          | None => failed tr
          end
      | DhtValues _ _ =>
          (* logger.warning(...): next iteration, no sleep *)
          dht_loop hw off (S attempt) r data tr
      | DhtRuntimeError | DhtOtherError => failed tr
      end
  end.

Definition read_gas (hw : hw_inputs) (pin : Z) (data : reading) : reading :=
  match gas_read hw with
  | PinLevel v =>
      mk_reading (timestamp data) (temperature data) (humidity data)
        (negb (Z.eqb v 0)) (light_level data)
        (if Z.eqb v 0 then "good" else "poor")
  | PinError => data
  end.

Definition read_light (hw : hw_inputs) (pin : Z) (data : reading) : reading :=
  match light_read hw with
  | PinLevel v =>
      mk_reading (timestamp data) (temperature data) (humidity data)
        (gas_detected data) (if Z.eqb v 0 then "dark" else "bright")
        (air_quality data)
  | PinError => data
  end.

(** The hardware branch; [sens = None] when [self.sensors] was never set. *)
Definition read_hardware (sens : option sensors_dict) (off : json)
  (hw : hw_inputs) (data : reading) : reading * list hw_event :=
  match sens with
  | None => (data, [])
  | Some sd =>
      let '(data, tr) := if s_dht22 sd then dht_loop hw off 0 max_retries data []
                         else (data, []) in
      let '(data, tr) := match s_gas_pin sd with
                         | Some p => (read_gas hw p data, (tr ++ [ReadPin p])%list)
                         | None => (data, tr)
                         end in
      match s_light_pin sd with
      | Some p => (read_light hw p data, (tr ++ [ReadPin p])%list)
      | None => (data, tr)
      end
  end.

(** The simulated branch: [None] if a [random.choice] index were out of
    range (it cannot be for draws [random] returns). *)
Definition read_simulated (d : sim_draws) (data : reading) : option reading :=
  match choice [false; false; false; true] (i_gas d),
        choice ["dark"; "dim"; "bright"] (i_light d),
        choice ["excellent"; "good"; "moderate"] (i_air d) with
  | Some g, Some l, Some a =>
      Some (mk_reading (timestamp data)
              (Some (round1 (20 + uniform (-5) 15 (r_temp d))%Q))
              (Some (round1 (40 + uniform (-10) 30 (r_hum d))%Q))
              g l a)
  | _, _, _ => None
  end.

(** [read_sensors]: the reading ([None] if the call raised) and the
    hardware accesses it made. [off] is [settings.get('temp_offset', 0)]. *)
Definition read_sensors (rpi_available : bool) (now : string)
  (d : sim_draws) (sens : option sensors_dict) (off : json) (hw : hw_inputs)
  : option reading * list hw_event :=
  let data := initial_reading now in
  if negb rpi_available then (read_simulated d data, [])
  else let '(r, tr) := read_hardware sens off hw data in (Some r, tr).

End Sensors.

(* ------------------------------------------------------------------ *)
(** ** Weather service: [WeatherService.get_current] (core/weather.py) *)

Module Weather.

Record weather_service := mk_ws {
  api_key : json;
  ws_location : json;
  weather_source : json;
  current_weather : gmap string json
}.

(** Python's [value == 'name'] for a JSON value and a string. *)
Definition is_source (v : json) (name : string) : bool :=
  match v with JStr s => String.eqb s name | _ => false end.

Definition dict_get (s : gmap string json) (k : string) (dflt : json) : json :=
  match s !! k with Some v => v | None => dflt end.

(** [WeatherService.__init__(settings)]; [env_key] is the
    WEATHER_API_KEY environment variable (or ''). *)
Definition weather_service_init (s : gmap string json) (env_key : string)
  : weather_service :=
  mk_ws (dict_get s "weather_api_key" (JStr env_key))
        (dict_get s "weather_location" (JStr "Gold Coast, QLD"))
        (dict_get s "weather_source" (JStr "openweather"))
        ∅.

Definition default_weather (location : json) (now : string)
  : gmap string json :=
  dict_of_pairs
    [("temp", JNum 22); ("feels_like", JNum 23); ("condition", JStr "Clear");
     ("description", JStr "Clear Sky"); ("humidity", JNum 60);
     ("pressure", JNum 1013); ("wind_speed", JNum (85 # 10));
     ("wind_direction", JNum 180); ("visibility", JNum 10);
     ("uv_index", JNum 5); ("location", location); ("country", JStr "AU");
     ("icon", JStr "01d"); ("sunrise", JStr "06:45");
     ("sunset", JStr "18:30"); ("timestamp", JStr now);
     ("source", JStr "Default"); ("radar_available", JBool false)].

Definition qld_radar_url : string :=
  "https://data.theweather.com.au/access/animators/radar/?lt=wzstate&user=10545v3&lc=qld".

Definition qld_default_weather (now : string) : gmap string json :=
  dict_of_pairs
    [("temp", JNum 24); ("feels_like", JNum 26);
     ("condition", JStr "Partly Cloudy"); ("description", JStr "Partly Cloudy");
     ("humidity", JNum 68); ("pressure", JNum 1013);
     ("wind_speed", JNum (152 # 10)); ("wind_direction", JNum 135);
     ("visibility", JNum 10); ("uv_index", JNum 8);
     ("location", JStr "Gold Coast"); ("country", JStr "AU");
     ("icon", JStr "02d"); ("sunrise", JStr "06:30");
     ("sunset", JStr "18:45"); ("timestamp", JStr now);
     ("source", JStr "Queensland Radar"); ("radar_available", JBool true);
     ("radar_url", JStr qld_radar_url);
     ("radar_description", JStr "Live weather radar showing precipitation and storm activity across Queensland")].

(** What [requests.get] does: raise (connection error, timeout), or return
    a status; for status 200, [parsed] is the dict the branch builds from
    [response.json()], [None] when building it raises (bad JSON,
    KeyError). *)
Inductive http_outcome :=
| HttpRaises
| HttpStatus (code : Z) (parsed : option (gmap string json)).

(** The [try] body of [_get_openweather_current]: [None] when an exception
    leaves it, otherwise the service state after it. *)
Definition openweather_try (ws : weather_service) (http : http_outcome)
  : option weather_service :=
  match http with
  | HttpRaises => None
  | HttpStatus code parsed =>
      if Z.eqb code 200 then
        match parsed with
        | Some w => Some (mk_ws (api_key ws) (ws_location ws)
                            (weather_source ws) w)
        | None => None
        end
      else Some ws
  end.

Definition get_openweather_current (ws : weather_service) (location : json)
  (http : http_outcome) (now : string) : gmap string json * weather_service :=
  if negb (truthy (api_key ws)) then (default_weather location now, ws)
  else match openweather_try ws http with
       | None => (default_weather location now, ws)   (* except Exception *)
       | Some ws' => (current_weather ws', ws')       (* return self.current_weather *)
       end.

(** [get_current(location=None)]; [http] is consulted only on the
    OpenWeatherMap path. *)
Definition get_current (ws : weather_service) (location : json)
  (http : http_outcome) (now : string) : gmap string json * weather_service :=
  let location := if truthy location then location else ws_location ws in
  if is_source (weather_source ws) "openweather" then
    get_openweather_current ws location http now
  else if is_source (weather_source ws) "qld_radar" then
    let w := qld_default_weather now in
    (w, mk_ws (api_key ws) (ws_location ws) (weather_source ws) w)
  else (default_weather location now, ws).

End Weather.

(* ------------------------------------------------------------------ *)
(** ** Google Photos: [GooglePhotosService._make_request] *)

Module Photos.

(** What one [requests.request] call does; [json_ok] tells whether
    [response.json()] succeeds. *)
Inductive req_outcome :=
| ReqTimeout
| ReqError
| ReqResponse (status : Z) (json_ok : bool).

Inductive photo_event :=
| Refresh
| Request (token : string).

Record api_result := mk_result {
  success : bool;
  status_code : Z
}.

(** The result of the last response: 200 with its JSON, or its status. *)
Definition finish (o : req_outcome) : api_result :=
  match o with
  | ReqTimeout => mk_result false 504
  | ReqError => mk_result false 500
  | ReqResponse s ok =>
      if Z.eqb s 200 then (if ok then mk_result true 200 else mk_result false 500)
      else mk_result false s
  end.

(** From [headers['Authorization'] = ...] on: [refresh n] is what the n-th
    call of [refresh_access_token] returns ([Some t]: True, and [t] is the
    token [_get_access_token] then reads; [None]: False), [resp n] is the
    n-th request's outcome. *)
Definition send (refresh : nat -> option string) (resp : nat -> req_outcome)
  (tok : string) (nref : nat) (tr : list photo_event)
  : api_result * list photo_event :=
  let tr := (tr ++ [Request tok])%list in
  match resp 0 with
  | ReqResponse s ok =>
      if Z.eqb s 401 then
        let tr := (tr ++ [Refresh])%list in
        match refresh nref with
        | Some tok' => (finish (resp 1), (tr ++ [Request tok'])%list)
        | None => (mk_result false 401, tr)
        end
      else (finish (ReqResponse s ok), tr)
  | o => (finish o, tr)
  end.

(** [_make_request]: [token] is the stored access token, [expired] whether
    [_token_expiry] is set and passed. *)
Definition make_request (token : string) (expired : bool)
  (refresh : nat -> option string) (resp : nat -> req_outcome)
  : api_result * list photo_event :=
  match token with
  | EmptyString => (mk_result false 401, [])
  | _ =>
      if expired then
        match refresh 0 with
        | None => (mk_result false 401, [Refresh])
        | Some t => send refresh resp t 1 [Refresh]
        end
      else send refresh resp token 0 []
  end.

Definition is_request (e : photo_event) : bool :=
  match e with Request _ => true | Refresh => false end.

Definition request_count (tr : list photo_event) : nat :=
  length (filter is_request tr).

End Photos.

(* ------------------------------------------------------------------ *)
(** ** Voice commands: [execute_command] (voice_assistant.py) and the
       [voice_command] socket handler (app.py) *)

Module Voice.

(** The observable effects of the two handlers. *)
Inductive voice_effect :=
| Emit (event : string) (payload : list (string * string))
| HttpPost (url : string) (payload : list (string * string))
| Print (text : string)
| Speak (text : string).

Definition flask_url : string := "http://localhost:5000/update_url".

(** The [commands] table of voice_assistant.py. *)
Definition commands : list (string * string) :=
  [("open xbox live", "https://www.xbox.com/en-US/live");
   ("load youtube", "https://www.youtube.com")].

Fixpoint lookup_command (c : string) (l : list (string * string))
  : option string :=
  match l with
  | [] => None
  | (k, v) :: l => if String.eqb c k then Some v else lookup_command c l
  end.

(** What [requests.post(flask_url, ...)] does: a status, or an exception
    with its message. *)
Inductive post_outcome :=
| PostStatus (code : Z)
| PostRaises (msg : string).

Definition execute_command (command : string) (post : post_outcome)
  : list voice_effect :=
  let say := fun text => [Print text; Speak text] in
  match lookup_command command commands with
  | Some url =>
      HttpPost flask_url [("url", url)] ::
      say (match post with
           | PostStatus code =>
               if Z.eqb code 200 then "Opening " +:+ command +:+ "."
               else "Failed to execute the command."
           | PostRaises msg => "An error occurred: " +:+ msg
           end)
  | None => say "I'm sorry, I didn't understand that command."
  end.

(** [handle_voice_command(data)] with [command = data.get('command', '')]. *)
Definition handle_voice_command (command : string) (now : string)
  : list voice_effect :=
  match command with
  | EmptyString => []
  | _ => [Emit "voice_response"
            [("command", command);
             ("response", "Received command: " +:+ command);
             ("timestamp", now)]]
  end.

End Voice.

(* ------------------------------------------------------------------ *)
(** ** Weather forecast and alerts (core/weather.py) *)

Module WeatherForecast.
Import Weather.

(** One entry of [self.forecast] / of [_get_default_forecast]: both build
    dicts with these keys. *)
Record day_forecast := mk_day {
  fc_date : string;
  fc_day_name : string;
  fc_day_short : string;
  temp_min : Z;
  temp_max : Z;
  temp_avg : Z;
  fc_condition : string;
  fc_description : string;
  humidity_avg : Z;
  wind_speed_avg : Q;
  precipitation_chance : Z;
  fc_icon : string
}.

Definition conditions : list string :=
  ["Sunny"; "Partly Cloudy"; "Cloudy"; "Light Rain"; "Clear";
   "Scattered Clouds"].

Definition descriptions : list string :=
  ["Sunny"; "Partly Cloudy"; "Cloudy"; "Light Rain"; "Clear Sky";
   "Scattered Clouds"].

(** [datetime.now()] is given by [today], the proleptic Gregorian ordinal
    of its date ([date.toordinal()]); [datetime.max] is on ordinal
    [max_ordinal] (9999-12-31). *)
Definition max_ordinal : Z := 3652059.

(** The date of [datetime.now() + timedelta(days=i)], as an ordinal:
    [timedelta] raises OverflowError beyond 999999999 days, and the sum
    raises it past year 9999 ([None]). *)
Definition shift_date (today i : Z) : option Z :=
  if (i <=? 999999999)%Z && (today + i <=? max_ordinal)%Z then Some (today + i)%Z
  else None.

(** Entry [i] of [_get_default_forecast]; [date] is the
    [strftime('%Y-%m-%d')], [%A] and [%a] of its date. The index
    [i % len(conditions)] is always in range, so the [nth] default is
    never used. *)
Definition default_day (date : string * string * string) (i : Z)
  : day_forecast :=
  let '(d, dn, ds) := date in
  let condition_idx := Z.to_nat (i mod Z.of_nat (length conditions)) in
  mk_day d dn ds (18 + i mod 5) (26 + i mod 6) (22 + i mod 4)
    (nth condition_idx conditions "") (nth condition_idx descriptions "")
    (65 + i mod 20) ((21 # 2) + inject_Z (i mod 8))%Q ((i * 15) mod 80) "01d".

(** The last [n] rounds of [for i in range(days)], from [i] on; [fmt d]
    is the three [strftime] strings of the date with ordinal [d]. [None]
    when OverflowError leaves the loop (nothing in the function catches
    it). *)
Fixpoint default_loop (today : Z) (fmt : Z -> string * string * string)
  (n : nat) (i : Z) : option (list day_forecast) :=
  match n with
  | O => Some []
  | S n' =>
      match shift_date today i with
      | None => None
      | Some d =>
          match default_loop today fmt n' (i + 1)%Z with
          | Some l => Some (default_day (fmt d) i :: l)
          | None => None
          end
      end
  end.

(** [_get_default_forecast(days)]. *)
Definition default_forecast (today : Z) (fmt : Z -> string * string * string)
  (days : Z) : option (list day_forecast) :=
  default_loop today fmt (Z.to_nat days) 0.

(** How the [try] block of [_get_openweather_forecast] ends after a 200
    response: the list it builds, an exception in the grouping loop (before
    [self.forecast = []]), or an exception in the summary loop after
    [partial] was appended to [self.forecast]. *)
Inductive forecast_build :=
| BuildOk (l : list day_forecast)
| BuildFailsBeforeReset
| BuildFailsAfter (partial : list day_forecast).

Inductive forecast_http :=
| FcRaises
| FcStatus (code : Z) (built : forecast_build).

(** [_get_openweather_forecast(location, days)]; [cache] is
    [self.forecast]. Returns the result ([None] when an exception leaves
    it: the fallback [_get_default_forecast] call is outside the [try], or
    in its [except] clause) and the new [self.forecast]. *)
Definition get_openweather_forecast (ws : weather_service)
  (cache : list day_forecast) (http : forecast_http)
  (today : Z) (fmt : Z -> string * string * string) (days : Z)
  : option (list day_forecast) * list day_forecast :=
  if negb (truthy (api_key ws)) then (default_forecast today fmt days, cache)
  else match http with
       | FcRaises => (default_forecast today fmt days, cache)
       | FcStatus code b =>
           if Z.eqb code 200 then
             match b with
             | BuildOk l => (Some l, l)
             | BuildFailsBeforeReset => (default_forecast today fmt days, cache)
             | BuildFailsAfter p => (default_forecast today fmt days, p)
             end
           else (Some cache, cache)           (* return self.forecast *)
       end.

(** [get_forecast(location=None, days=7)]. *)
Definition get_forecast (ws : weather_service) (cache : list day_forecast)
  (http : forecast_http) (today : Z) (fmt : Z -> string * string * string)
  (days : Z) : option (list day_forecast) * list day_forecast :=
  if is_source (weather_source ws) "openweather"
  then get_openweather_forecast ws cache http today fmt days
  else (default_forecast today fmt days, cache).

(** [str.lower()] on the ASCII letters. Of the other code points only
    U+212A (KELVIN SIGN) and U+0130 lower to a string with an ASCII
    letter ('k', and 'i' followed by a combining dot), so comparing the
    result with the ASCII words below decides as Python does. *)
Definition ascii_lower (c : Ascii.ascii) : Ascii.ascii :=
  let n := Ascii.nat_of_ascii c in
  if (65 <=? n)%nat && (n <=? 90)%nat then Ascii.ascii_of_nat (n + 32) else c.

Fixpoint str_lower (s : string) : string :=
  match s with
  | EmptyString => EmptyString
  | String c t => String (ascii_lower c) (str_lower t)
  end.

(** [v > n] for a JSON value and a number: numbers and booleans compare,
    anything else raises TypeError ([None]). *)
Definition py_gt (v : json) (n : Q) : option bool :=
  match v with
  | JNum q => Some (negb (Qle_bool q n))
  | JBool b => Some (negb (Qle_bool (if b then 1 else 0) n))
  | _ => None
  end.

(** [v.lower()]: only strings have it. *)
Definition py_lower (v : json) : option string :=
  match v with JStr s => Some (str_lower s) | _ => None end.

Record alert := mk_alert {
  al_type : string;
  severity : string;
  al_title : string;
  al_description : string;
  issued : string;
  expires : string
}.

(** The alerts [get_weather_alerts] derives from the reading [current];
    [fmt v] is [str(v)] of the wind speed in the f-string, [now],
    [now6h] and [now3h] are the [isoformat()] strings. [None] when a
    comparison or [.lower()] raises (nothing catches it). *)
Definition alerts_of (fmt : json -> string) (now now6h now3h : string)
  (current : gmap string json) : option (list alert) :=
  match py_gt (dict_get current "wind_speed" (JNum 0)) 40 with
  | None => None
  | Some windy =>
      let a1 := if windy
                then [mk_alert "wind" "moderate" "Strong Wind Warning"
                        ("Winds exceeding " +:+ fmt (dict_get current "wind_speed" JNull) +:+ " km/h")
                        now now6h]
                else [] in
      match py_lower (dict_get current "condition" (JStr "")) with
      | None => None
      | Some c =>
          if String.eqb c "thunderstorm" || String.eqb c "storm"
          then Some (a1 ++ [mk_alert "storm" "high" "Severe Thunderstorm Warning"
                              "Severe thunderstorms with heavy rain and strong winds possible"
                              now now3h])%list
          else Some a1
      end
  end.

(** [get_weather_alerts(location)]: it fetches the reading with
    [get_current] and returns the alerts and the service state. *)
Definition get_weather_alerts (ws : weather_service) (location : json)
  (http : http_outcome) (fmt : json -> string) (now now6h now3h : string)
  : option (list alert) * weather_service :=
  let '(cur, ws') := get_current ws location http now in
  (alerts_of fmt now now6h now3h cur, ws').

End WeatherForecast.

(* ------------------------------------------------------------------ *)
(** ** Google Photos service state: token refresh, disconnect, listing
       (core/google_photos.py), wired to the hub as [initialize_controllers]
       does ([get_settings = lambda: self.settings], [save_settings =
       BingHomeHub.save_settings]) *)

Module PhotoService.
Import Settings.
Import Weather(dict_get).

(** [needle in str(v)] for a parsed JSON value. The repr of a dict, list,
    number, bool or None puts quotes, separators or escapes (which start
    with a backslash) around the characters of each string, and an ASCII
    word made of letters and '_' cannot start inside such an escape; so the
    word occurs in the repr exactly when it occurs in one string key or
    value. [response.json()] keeps the last value of a key that occurs
    twice in an object, so only that value is looked at. *)
Fixpoint mentions (needle : string) (v : json) : bool :=
  match v with
  | JStr s => str_contains needle s
  | JArr l => (fix go (l : list json) : bool :=
                 match l with
                 | [] => false
                 | x :: l => mentions needle x || go l
                 end) l
  | JObj l => (fix go (l : list (string * json)) : bool :=
                 match l with
                 | [] => false
                 | (k, x) :: l =>
                     str_contains needle k ||
                     (negb (existsb (fun kv => String.eqb kv.1 k) l) && mentions needle x) ||
                     go l
                 end) l
  | _ => false
  end.

(** [GOOGLE_CLIENT_ID] and [GOOGLE_CLIENT_SECRET] (or ''). *)
Record credentials := mk_creds {
  client_id : string;
  client_secret : string
}.

(** What [requests.post(TOKEN_URL, ...)] does: time out, raise another
    exception, or answer with a status; [text_empty] tells whether
    [response.text] is empty and [body] is [response.json()] ([None] when
    it raises). *)
Inductive token_http :=
| TokTimeout
| TokError
| TokStatus (code : Z) (text_empty : bool) (body : option json).

(** The keys [_disconnect] and the disconnect route overwrite. *)
Definition disconnect_updates : list (string * json) :=
  [("google_photos_connected", JBool false);
   ("google_photos_access_token", JStr "");
   ("google_photos_refresh_token", JStr "");
   ("google_photos_album", JStr "")].

(** [_disconnect()] (and the POST /api/google_photos/disconnect route,
    which does the same on [binghome.settings.copy()]). *)
Definition disconnect (h : hub) (io : save_io) : hub :=
  save_copy_with h disconnect_updates io.

(** [refresh_access_token()]: the result, the hub after it, the new
    [_token_expiry] and whether the token endpoint was called. [deadline v]
    is what [datetime.now() + timedelta(seconds=v - 60)] evaluates to for
    [expires_in = v] ([None] when it raises: a non-number, an overflow);
    [io] is what the one [save_settings] call of the run does. *)
Definition refresh_access_token (c : credentials) (h : hub)
  (expiry : option Q) (deadline : json -> option Q) (resp : token_http)
  (io : save_io) : bool * hub * option Q * bool :=
  let refresh_token := dict_get (settings h) "google_photos_refresh_token" (JStr "") in
  if negb (truthy refresh_token) then (false, h, expiry, false)
  else if String.eqb (client_id c) "" || String.eqb (client_secret c) ""
  then (false, h, expiry, false)
  else match resp with
  | TokTimeout | TokError => (false, h, expiry, true)
  | TokStatus code text_empty body =>
      if Z.eqb code 200 then
        match body with
        | Some (JObj l) =>
            let tokens := dict_of_pairs l in
            let new_access_token := dict_get tokens "access_token" (JStr "") in
            if truthy new_access_token then
              let ups := (("google_photos_access_token", new_access_token) ::
                          match tokens !! "refresh_token" with
                          | Some v => if truthy v
                                      then [("google_photos_refresh_token", v)]
                                      else []
                          | None => []
                          end)%list in
              let h' := save_copy_with h ups io in
              match deadline (dict_get tokens "expires_in" (JNum 3600)) with
              | Some t => (true, h', Some t, true)
              | None => (false, h', expiry, true)   (* except Exception *)
              end
            else (false, h, expiry, true)
        | _ => (false, h, expiry, true)   (* json() raises, or .get on a non-dict *)
        end
      else
        let error_data := if text_empty then Some (JObj []) else body in
        match error_data with
        | Some (JObj l) =>
            if Z.eqb code 400 && mentions "invalid_grant" (JObj l)
            then (false, disconnect h io, expiry, true)
            else (false, h, expiry, true)
        | _ => (false, h, expiry, true)   (* json() raises, or .get on a non-dict *)
        end
  end.

(** [is_connected()], as a truth value:
    [settings.get('google_photos_connected', False) and bool(token)]. *)
Definition is_connected (h : hub) : bool :=
  truthy (dict_get (settings h) "google_photos_connected" (JBool false)) &&
  truthy (dict_get (settings h) "google_photos_access_token" (JStr "")).

(** The one-character strings of [s], in order (one per byte: every item
    is a str, on which the loop body raises, so only whether there is one
    matters). *)
Fixpoint py_chars (s : string) : list json :=
  match s with
  | EmptyString => []
  | String c t => JStr (String c EmptyString) :: py_chars t
  end.

(** Python iteration over a JSON value ([for item in v]): a list gives its
    items, a dict its keys, a string its characters; numbers, booleans and
    None raise TypeError. *)
Definition py_iter (v : json) : option (list json) :=
  match v with
  | JArr l => Some l
  | JObj l => Some (map (fun kv => JStr kv.1) (map_to_list (dict_of_pairs l)))
  | JStr s => Some (py_chars s)
  | _ => None
  end.

(** [d.get(k, dflt)] on a JSON value: only dicts have [.get]. *)
Definition py_get (d : json) (k : string) (dflt : json) : option json :=
  match d with
  | JObj l => Some (dict_get (dict_of_pairs l) k dflt)
  | _ => None
  end.

(** [v.startswith(p)]: only strings have it. *)
Definition py_startswith (v : json) (p : string) : option bool :=
  match v with JStr s => Some (String.prefix p s) | _ => None end.

(** A photo of [get_photos_from_album]. *)
Record album_photo := mk_photo {
  p_id : json;
  p_url : string;
  p_filename : json;
  p_mime : json;
  p_description : json;
  p_creation : json
}.

(** The body of the loop over [media_items]: [None] when the item raises
    (not a dict, no 'id', a 'baseUrl' that is not a string, a mimeType that
    is not a string, a 'mediaMetadata' that is not a dict), [Some None]
    when it is skipped. *)
Definition album_item (item : json) : option (option album_photo) :=
  match py_get item "mimeType" (JStr "") with
  | None => None
  | Some mt =>
      match py_startswith mt "image/" with
      | None => None
      | Some false => Some None
      | Some true =>
          match item with
          | JObj l =>
              let d := dict_of_pairs l in
              match d !! "id", d !! "baseUrl" with
              | Some id, Some (JStr base) =>
                  match py_get (dict_get d "mediaMetadata" (JObj [])) "creationTime" (JStr "") with
                  | Some ct =>
                      Some (Some (mk_photo id (base +:+ "=w1920-h1080")
                                    (dict_get d "filename" (JStr "")) mt
                                    (dict_get d "description" (JStr "")) ct))
                  | None => None
                  end
              | _, _ => None
              end
          | _ => None
          end
      end
  end.

Fixpoint album_items (items : list json) : option (list album_photo) :=
  match items with
  | [] => Some []
  | it :: rest =>
      match album_item it with
      | None => None
      | Some o =>
          match album_items rest with
          | None => None
          | Some ps => Some (match o with Some p => p :: ps | None => ps end)
          end
      end
  end.

(** The result of [_make_request]: a failure with its status, or the
    parsed JSON [data] of a 200 response. *)
Inductive request_result :=
| ReqFailed (status : Z)
| ReqData (data : json).

(** What [get_photos_from_album] returns ([PhotosRaised] when an
    exception leaves it: nothing in it catches one). *)
Inductive photos_result :=
| NoAlbum
| PhotosFailed (status : Z)
| PhotosOk (photos : list album_photo)
| PhotosRaised.

(** [get_photos_from_album(album_id, page_size=100)]: the result and the
    search bodies it sent; [request body] is what [_make_request('POST',
    'mediaItems:search', json=body)] returns. *)
Definition get_photos_from_album (album_id : json)
  (request : json -> request_result) : photos_result * list json :=
  if negb (truthy album_id) then (NoAlbum, [])
  else
    let body := JObj [("albumId", album_id); ("pageSize", JNum 100)] in
    match request body with
    | ReqFailed s => (PhotosFailed s, [body])
    | ReqData data =>
        match py_get data "mediaItems" (JArr []) with
        | None => (PhotosRaised, [body])
        | Some mi =>
            match py_iter mi with
            | None => (PhotosRaised, [body])
            | Some items =>
                match album_items items with
                | Some ps => (PhotosOk ps, [body])
                | None => (PhotosRaised, [body])
                end
            end
        end
    end.

(** The items [album_item] keeps. *)
Definition is_image (item : json) : bool :=
  match py_get item "mimeType" (JStr "") with
  | Some mt => match py_startswith mt "image/" with
               | Some b => b
               | None => false
               end
  | None => false
  end.

End PhotoService.

(* ------------------------------------------------------------------ *)
(** ** Shared album links: [fetch_shared_album_photos] *)

Module SharedAlbum.

(** [len(s)] in code points of the UTF-8 string [s]: the bytes that are
    not continuation bytes (10xxxxxx). *)
Definition is_cont (c : Ascii.ascii) : bool :=
  let n := Ascii.nat_of_ascii c in (128 <=? n)%nat && (n <? 192)%nat.

Fixpoint py_len (s : string) : nat :=
  match s with
  | EmptyString => 0
  | String c t => (if is_cont c then 0 else 1) + py_len t
  end.

(** [s[:n]] in code points. *)
Fixpoint py_take (n : nat) (s : string) : string :=
  match s with
  | EmptyString => EmptyString
  | String c t =>
      if is_cont c then String c (py_take n t)
      else match n with
           | O => EmptyString
           | S n' => String c (py_take n' t)
           end
  end.

(** [s.split(sep)[0]]: the text before the first [sep]. *)
Fixpoint split_first (sep : Ascii.ascii) (s : string) : string :=
  match s with
  | EmptyString => EmptyString
  | String c t => if Ascii.eqb c sep then EmptyString else String c (split_first sep t)
  end.

(** [s.split(sep)[-1]]: the text after the last [sep]; [acc] holds the
    text since the last [sep] seen. *)
Fixpoint split_last_aux (sep : Ascii.ascii) (s acc : string) : string :=
  match s with
  | EmptyString => acc
  | String c t =>
      if Ascii.eqb c sep then split_last_aux sep t EmptyString
      else split_last_aux sep t (acc +:+ String c EmptyString)
  end.

Definition split_last (sep : Ascii.ascii) (s : string) : string :=
  split_last_aux sep s EmptyString.

Record shared_photo := mk_shared {
  sp_id : string;
  sp_url : string;
  sp_url_hd : string;
  sp_url_sd : string;
  sp_thumbnail : string;
  sp_source : string
}.

(** The photo built from one matched URL longer than 80 characters. *)
Definition shared_photo_of (url : string) : shared_photo :=
  let clean_url := split_first "="%char url in
  mk_shared (py_take 20 (split_last "/"%char clean_url))
    (clean_url +:+ "=w1280-h720") (clean_url +:+ "=w1920-h1080")
    (clean_url +:+ "=w1024-h600") (clean_url +:+ "=w320-h240") "shared_album".

Definition photos_of (found : list string) : list shared_photo :=
  map shared_photo_of (filter (fun u => (80 <? py_len u)%nat) found).

(** What the HTTP part does: time out, raise, or answer with a status; for
    status 200, [found] and [found_alt] are the elements of
    [set(re.findall(url_pattern, html))] and of
    [set(re.findall(data_pattern, html))], in the set's iteration order. *)
Inductive album_page :=
| PageTimeout
| PageError
| PageStatus (code : Z) (found found_alt : list string).

Inductive shared_result :=
| SharedOk (photos : list shared_photo) (count : nat)
| SharedFailed (photos : list shared_photo).

(** [fetch_shared_album_photos(shared_url)]: the result and whether the
    page was requested. *)
Definition fetch_shared_album_photos (shared_url : string) (page : album_page)
  : shared_result * bool :=
  match shared_url with
  | EmptyString => (SharedFailed [], false)
  | _ =>
      match page with
      | PageTimeout | PageError => (SharedFailed [], true)
      | PageStatus code found found_alt =>
          if negb (Z.eqb code 200) then (SharedFailed [], true)
          else match photos_of found with
               | [] => match photos_of found_alt with
                       | [] => (SharedFailed [], true)
                       | ps => (SharedOk ps (length ps), true)
                       end
               | ps => (SharedOk ps (length ps), true)
               end
      end
  end.

End SharedAlbum.

(* ------------------------------------------------------------------ *)
(** ** The wake-word loop of voice_assistant.py ([main]) *)

Module VoiceLoop.
Import Voice.

(** Effects of one iteration of [while True]: a call of
    [recognize_speech_once] (its prints included), the effects of
    [synthesize_speech] and [execute_command], and the final sleep. *)
Inductive loop_effect :=
| Listen
| Effect (e : voice_effect)
| SleepSecs (n : nat).

(** One iteration: [wake] and [command] are what the first and (if it is
    made) the second [recognize_speech_once] call return. *)
Definition main_iteration (wake command : string) (post : post_outcome)
  : list loop_effect :=
  (Listen ::
   (if str_contains "hey bing" wake
    then Effect (Speak "Yes?") :: Listen ::
         match command with
         | EmptyString => []
         | _ => map Effect (execute_command command post)
         end
    else []) ++ [SleepSecs 1])%list.

End VoiceLoop.

(* ================================================================== *)
(** * Properties *)

Module SettingsFacts.
Import Settings.

(** ** Dicts read back from JSON objects *)

Lemma dict_of_pairs_rev (l : list (string * json)) :
  dict_of_pairs l = list_to_map (rev l).
Proof.
  unfold dict_of_pairs, list_to_map.
  symmetry. apply (fold_left_rev_right (fun kv m => <[kv.1 := kv.2]> m)).
Qed.

Lemma fst_rev (l : list (string * json)) : (rev l).*1 = rev (l.*1).
Proof.
  induction l as [|x l IH]; [done|]. simpl. rewrite fmap_app, IH. done.
Qed.

Lemma dict_of_pairs_map_to_list (s : gmap string json) :
  dict_of_pairs (map_to_list s) = s.
Proof.
  rewrite dict_of_pairs_rev.
  rewrite (list_to_map_proper (rev (map_to_list s)) (map_to_list s)).
  - apply list_to_map_to_list.
  - rewrite fst_rev. apply NoDup_ListNoDup, NoDup_rev, NoDup_ListNoDup.
    apply NoDup_fst_map_to_list.
  - symmetry. apply Permutation_rev.
Qed.

(** ** The default-key merge *)

Lemma default_merge_fold_keep (l : list (string * json)) m k v :
  m !! k = Some v -> fold_left default_merge_step l m !! k = Some v.
Proof.
  revert m. induction l as [|[k' v'] l IH]; intros m Hm; simpl; [done|].
  apply IH. unfold default_merge_step; simpl.
  destruct (m !! k') eqn:E; [done|].
  rewrite lookup_insert_ne; [done|]. congruence.
Qed.

Lemma default_merge_fold_some (l : list (string * json)) m k :
  is_Some (m !! k) \/ k ∈ l.*1 ->
  is_Some (fold_left default_merge_step l m !! k).
Proof.
  revert m. induction l as [|[k' v'] l IH]; intros m Hm; simpl in *.
  - destruct Hm as [H|H]; [done|]. by apply elem_of_nil in H.
  - apply IH. destruct Hm as [H|H].
    + left. unfold default_merge_step; simpl.
      destruct (m !! k') eqn:E; [done|].
      rewrite lookup_insert_ne; [done|]. intros ->. rewrite E in H.
      by destruct H.
    + apply elem_of_cons in H as [->|H]; [left|right; done].
      unfold default_merge_step; simpl.
      destruct (m !! k') eqn:E; [by eexists|].
      rewrite lookup_insert_eq. by eexists.
Qed.

Lemma merge_defaults_keep d k v :
  d !! k = Some v -> merge_defaults d !! k = Some v.
Proof. apply default_merge_fold_keep. Qed.

Lemma merge_defaults_has_defaults d k :
  k ∈ default_keys -> is_Some (merge_defaults d !! k).
Proof. intros H. apply default_merge_fold_some. by right. Qed.

(** ** Saving then loading *)

Lemma load_dump (s : gmap string json) :
  load_settings (Some (Some (dump s))) = LDict (merge_defaults s).
Proof. unfold load_settings, dump. by rewrite dict_of_pairs_map_to_list. Qed.

(** ** The default keys are never lost *)

Definition has_defaults (s : gmap string json) : Prop :=
  forall k, k ∈ default_keys -> is_Some (s !! k).

Lemma default_settings_has_defaults : has_defaults default_settings.
Proof.
  intros k Hk.
  assert (Forall (fun k => is_Some (default_settings !! k)) default_keys) as H
    by (apply (bool_decide_unpack _); vm_compute; exact I).
  rewrite Forall_forall in H. by apply H.
Qed.

Lemma load_settings_has_defaults (f : config_file) d :
  load_settings f = LDict d -> has_defaults d.
Proof.
  intros H. unfold load_settings in H.
  destruct f as [[[]|]|]; try (injection H as <-; apply default_settings_has_defaults).
  - match type of H with (if ?c then _ else _) = _ => destruct c end;
      [discriminate|injection H as <-; apply default_settings_has_defaults].
  - match type of H with (if ?c then _ else _) = _ => destruct c end;
      [discriminate|injection H as <-; apply default_settings_has_defaults].
  - injection H as <-. intros k Hk. by apply merge_defaults_has_defaults.
Qed.

Lemma fold_keeps_some {B} (g : gmap string json -> B -> gmap string json)
  (Hg : forall m x k, is_Some (m !! k) -> is_Some (g m x !! k))
  (l : list B) m k :
  is_Some (m !! k) -> is_Some (fold_left g l m !! k).
Proof.
  revert m. induction l as [|x l IH]; intros m Hm; simpl; [done|].
  apply IH, Hg, Hm.
Qed.

Lemma insert_keeps_some (m : gmap string json) k' v k :
  is_Some (m !! k) -> is_Some (<[k' := v]> m !! k).
Proof.
  intros Hm. destruct (decide (k' = k)) as [->|Hne].
  - rewrite lookup_insert_eq. by eexists.
  - by rewrite lookup_insert_ne.
Qed.

Lemma post_step_keeps_some m kv k :
  is_Some (m !! k) -> is_Some (post_step m kv !! k).
Proof.
  intros Hm. unfold post_step.
  destruct (_ || _); [apply insert_keeps_some|]; done.
Qed.

Lemma merge_post_has_defaults old nd :
  has_defaults old -> has_defaults (merge_post old nd).
Proof.
  intros H k Hk. apply fold_keeps_some; [apply post_step_keeps_some|].
  by apply H.
Qed.

Lemma save_settings_has_defaults h s io b h' :
  has_defaults (settings h) -> has_defaults s ->
  save_settings h s io = (b, h') -> has_defaults (settings h').
Proof.
  intros Hh Hs Hsave. destruct io; simpl in Hsave;
    injection Hsave as <- <-; done.
Qed.

Lemma handle_event_has_defaults h e :
  has_defaults (settings h) -> has_defaults (settings (handle_event h e)).
Proof.
  intros Hh. destruct e as [body io|ups io]; simpl.
  - unfold api_settings_post. destruct body as [v|]; [|done]. cbv zeta.
    destruct (if truthy v then _ else _) as [nd|]; [|done].
    destruct (save_settings h (merge_post (settings h) nd) io)
      as [b h'] eqn:Es.
    assert (has_defaults (settings h')).
    { eapply save_settings_has_defaults; [done| |done].
      by apply merge_post_has_defaults. }
    by destruct b.
  - unfold save_copy_with.
    destruct (save_settings h _ io) as [b h'] eqn:Es; simpl.
    eapply save_settings_has_defaults; [done| |done].
    intros k Hk. apply fold_keeps_some; [intros; by apply insert_keeps_some|].
    by apply Hh.
Qed.

Lemma run_hub_has_defaults_aux evs h :
  has_defaults (settings h) ->
  has_defaults (settings (fold_left handle_event evs h)).
Proof.
  revert h. induction evs as [|e evs IH]; intros h Hh; simpl; [done|].
  apply IH, handle_event_has_defaults, Hh.
Qed.

(** ** The POST merge, key by key *)

Lemma post_fold_absent (l : list (string * json)) m k :
  k ∉ l.*1 -> fold_left post_step l m !! k = m !! k.
Proof.
  revert m. induction l as [|[k' v'] l IH]; intros m Hk; simpl in *; [done|].
  apply not_elem_of_cons in Hk as [Hne Hk].
  rewrite IH by done. unfold post_step; simpl.
  destruct (_ || _); [|done]. by rewrite lookup_insert_ne.
Qed.

Lemma post_fold_present (l : list (string * json)) m k v :
  NoDup l.*1 -> (k, v) ∈ l ->
  fold_left post_step l m !! k =
  if truthy v || bool_decide (m !! k = None) then Some v else m !! k.
Proof.
  revert m. induction l as [|[k' v'] l IH]; intros m Hnd Hin; simpl in *.
  - by apply elem_of_nil in Hin.
  - apply NoDup_cons in Hnd as [Hk' Hnd].
    apply elem_of_cons in Hin as [Heq|Hin].
    + injection Heq as -> ->.
      rewrite post_fold_absent by done. unfold post_step; simpl.
      destruct (_ || _); [by rewrite lookup_insert_eq|done].
    + assert (k <> k') as Hne.
      { intros ->. apply Hk'. apply list_elem_of_fmap. by exists (k', v). }
      rewrite IH by done. unfold post_step; simpl.
      destruct (truthy v' || _); [|done].
      by rewrite !lookup_insert_ne.
Qed.

Lemma merge_post_lookup old nd k :
  merge_post old nd !! k =
  match nd !! k with
  | Some v => if truthy v || bool_decide (old !! k = None) then Some v
              else old !! k
  | None => old !! k
  end.
Proof.
  unfold merge_post. destruct (nd !! k) as [v|] eqn:E.
  - apply post_fold_present; [apply NoDup_fst_map_to_list|].
    by apply elem_of_map_to_list.
  - apply post_fold_absent. intros Hin.
    apply list_elem_of_fmap in Hin as [[k' v'] [-> Hin]].
    apply elem_of_map_to_list in Hin. simpl in E. congruence.
Qed.

(** ** The GET mask *)

Definition hide_val (o : option json) : option json :=
  match o with
  | Some v => Some (if truthy v then JStr "" else v)
  | None => None
  end.

Definition hide_cfg (ok oc : option json) : option json :=
  match ok with
  | Some v => if truthy v then Some (JBool true) else oc
  | None => oc
  end.

Lemma hide_step_ne safe key j :
  j <> key -> j <> configured_key key -> hide_step safe key !! j = safe !! j.
Proof.
  intros H1 H2. unfold hide_step.
  destruct (safe !! key) as [v|]; [|done]. destruct (truthy v); [|done].
  by rewrite !lookup_insert_ne.
Qed.

Lemma hide_step_key safe key :
  hide_step safe key !! key = hide_val (safe !! key).
Proof.
  unfold hide_step, hide_val. destruct (safe !! key) as [v|] eqn:E; [|done].
  destruct (truthy v) eqn:T; [by rewrite lookup_insert_eq|done].
Qed.

Lemma hide_step_cfg safe key :
  configured_key key <> key ->
  hide_step safe key !! configured_key key =
  hide_cfg (safe !! key) (safe !! configured_key key).
Proof.
  intros Hne. unfold hide_step, hide_cfg.
  destruct (safe !! key) as [v|] eqn:E; [|done].
  destruct (truthy v) eqn:T; [|done].
  rewrite lookup_insert_ne by done. by rewrite lookup_insert_eq.
Qed.

(** Key lists the GET loop handles independently, key by key. *)
Definition good_keys (L : list string) : Prop :=
  NoDup L /\
  Forall (fun a => Forall (fun b => configured_key a <> b) L) L /\
  Forall (fun a => Forall (fun b =>
    a = b \/ configured_key a <> configured_key b) L) L.

Lemma good_keys_cons a L : good_keys (a :: L) -> good_keys L.
Proof.
  intros (Hnd & H1 & H2). apply NoDup_cons in Hnd as [_ Hnd].
  apply Forall_cons in H1 as [_ H1]. apply Forall_cons in H2 as [_ H2].
  split; [done|split].
  - eapply Forall_impl; [exact H1|]. intros x Hx. apply Forall_cons in Hx as [_ Hx]. exact Hx.
  - eapply Forall_impl; [exact H2|]. intros x Hx. apply Forall_cons in Hx as [_ Hx]. exact Hx.
Qed.

Lemma good_keys_cfg_ne L a b :
  good_keys L -> a ∈ L -> b ∈ L -> configured_key a <> b.
Proof.
  intros (_ & H1 & _) Ha Hb.
  rewrite Forall_forall in H1. specialize (H1 a Ha).
  rewrite Forall_forall in H1. by apply H1.
Qed.

Lemma good_keys_cfg_inj L a b :
  good_keys L -> a ∈ L -> b ∈ L -> a <> b ->
  configured_key a <> configured_key b.
Proof.
  intros (_ & _ & H2) Ha Hb Hab.
  rewrite Forall_forall in H2. specialize (H2 a Ha).
  rewrite Forall_forall in H2. by destruct (H2 b Hb).
Qed.

Lemma hide_fold_other L s j :
  j ∉ L -> (forall k, k ∈ L -> j <> configured_key k) ->
  fold_left hide_step L s !! j = s !! j.
Proof.
  revert s. induction L as [|a L IH]; intros s Hj Hc; simpl; [done|].
  apply not_elem_of_cons in Hj as [Hja Hj].
  rewrite IH; [|done|].
  - apply hide_step_ne; [done|]. apply Hc. by left.
  - intros k Hk. apply Hc. by right.
Qed.

Lemma hide_fold_key L s k :
  good_keys L -> k ∈ L -> fold_left hide_step L s !! k = hide_val (s !! k).
Proof.
  revert s. induction L as [|a L IH]; intros s HL Hk; simpl.
  - by apply elem_of_nil in Hk.
  - pose proof HL as (Hnd & _). apply NoDup_cons in Hnd as [Ha Hnd].
    apply elem_of_cons in Hk as [->|Hk].
    + rewrite hide_fold_other.
      * apply hide_step_key.
      * done.
      * intros k Hk Heq. eapply (good_keys_cfg_ne (a :: L) k a);
          [done|by right|by left|done].
    + assert (k <> a) by (intros ->; done).
      rewrite IH by (done || by eapply good_keys_cons).
      rewrite hide_step_ne; [done|done|].
      intros Heq. eapply (good_keys_cfg_ne (a :: L) a k);
        [done|by left|by right|done].
Qed.

Lemma hide_fold_cfg L s k :
  good_keys L -> k ∈ L ->
  fold_left hide_step L s !! configured_key k =
  hide_cfg (s !! k) (s !! configured_key k).
Proof.
  revert s. induction L as [|a L IH]; intros s HL Hk; simpl.
  - by apply elem_of_nil in Hk.
  - pose proof HL as (Hnd & _). apply NoDup_cons in Hnd as [Ha Hnd].
    apply elem_of_cons in Hk as [->|Hk].
    + rewrite hide_fold_other.
      * apply hide_step_cfg.
        eapply (good_keys_cfg_ne (a :: L)); [done|by left|by left].
      * intros Hin. eapply (good_keys_cfg_ne (a :: L) a);
          [done|by left|by right; exact Hin|done].
      * intros k Hk Heq. eapply (good_keys_cfg_inj (a :: L) a k);
          [done|by left|by right|intros ->; done|done].
    + assert (k <> a) by (intros ->; done).
      rewrite IH by (done || by eapply good_keys_cons).
      assert (configured_key k <> a) as Hka.
      { eapply (good_keys_cfg_ne (a :: L)); [done|by right|by left]. }
      assert (configured_key k <> configured_key a) as Hkb.
      { eapply (good_keys_cfg_inj (a :: L)); [done|by right|by left|done]. }
      rewrite !hide_step_ne; try done.
      intros Heq. eapply (good_keys_cfg_ne (a :: L) a k);
        [done|by left|by right|done].
Qed.

Lemma sensitive_keys_good : good_keys sensitive_keys.
Proof. unfold good_keys. apply (bool_decide_unpack _). vm_compute. exact I. Qed.

Lemma strip_secrets_lookup s j :
  j ∉ sensitive_keys -> strip_secrets s !! j = s !! j.
Proof.
  unfold strip_secrets. induction sensitive_keys as [|a L IH]; intros Hj;
    simpl; [done|].
  apply not_elem_of_cons in Hj as [Hja Hj].
  rewrite lookup_delete_ne by done. by apply IH.
Qed.

Lemma hide_val_agree o1 o2 :
  o1 = o2 \/ both_truthy o1 o2 = true -> hide_val o1 = hide_val o2.
Proof.
  intros [->|H]; [done|].
  destruct o1 as [v1|], o2 as [v2|]; try discriminate; simpl in *.
  apply andb_prop in H as [-> ->]. done.
Qed.

Lemma hide_cfg_agree o1 o2 c :
  o1 = o2 \/ both_truthy o1 o2 = true -> hide_cfg o1 c = hide_cfg o2 c.
Proof.
  intros [->|H]; [done|].
  destruct o1 as [v1|], o2 as [v2|]; try discriminate; simpl in *.
  apply andb_prop in H as [-> ->]. done.
Qed.

End SettingsFacts.

Module SettingsClaims.
Import Settings SettingsFacts.

(** C2: when [save_settings] persists a dict and returns true, the next
    [load_settings] returns a dict in which every saved key still maps to
    the saved value; the default merge only adds absent keys. *)
Theorem save_then_load_roundtrip (h h' : hub) (s : gmap string json)
  (io : save_io) :
  save_settings h s io = (true, h') ->
  exists d, load_settings (config h') = LDict d /\
            forall k v, s !! k = Some v -> d !! k = Some v.
Proof.
  intros Hsave. destruct io; simpl in Hsave; try discriminate.
  injection Hsave as <-. cbn [config]. rewrite load_dump.
  exists (merge_defaults s). split; [done|].
  intros k v Hk. by apply merge_defaults_keep.
Qed.

Definition roundtrip_sample : gmap string json :=
  <["openai_api_key" := JStr "sk-test"]>
  (<["temp_offset" := JNum (-3 # 2)]> ∅).

Lemma save_then_load_roundtrip_witness :
  save_settings (mk_hub ∅ None) roundtrip_sample SaveOk =
    (true, mk_hub roundtrip_sample (Some (Some (dump roundtrip_sample)))) /\
  exists d, load_settings (Some (Some (dump roundtrip_sample))) = LDict d /\
            forall k v, roundtrip_sample !! k = Some v -> d !! k = Some v.
Proof.
  split; [reflexivity|].
  exact (save_then_load_roundtrip (mk_hub ∅ None)
           (mk_hub roundtrip_sample (Some (Some (dump roundtrip_sample))))
           roundtrip_sample SaveOk eq_refl).
Defined.

(** C5: a dict returned by [load_settings] holds every default key, and
    no later POST /api/settings (nor any other copy-overwrite-save writer)
    removes one: the settings state always contains all default keys. *)
Theorem settings_always_have_defaults (f : config_file)
  (d : gmap string json) (evs : list settings_event) :
  load_settings f = LDict d ->
  forall k, k ∈ default_keys -> is_Some (settings (run_hub d f evs) !! k).
Proof.
  intros Hload. apply run_hub_has_defaults_aux. simpl.
  by apply (load_settings_has_defaults f).
Qed.

Lemma settings_always_have_defaults_witness :
  load_settings None = LDict default_settings /\
  is_Some (settings (run_hub default_settings None
             [EvPost (Some (JObj [("temp_offset", JNull)])) SaveOk;
              EvSaveCopy [("google_photos_access_token", JStr "")] SaveOk])
           !! "temp_offset").
Proof.
  split; [reflexivity|].
  apply (settings_always_have_defaults None default_settings); [reflexivity|].
  apply (bool_decide_unpack _). vm_compute. exact I.
Defined.

(** C9 (as amended): GET /api/settings returns each sensitive key whose
    stored value is truthy as the empty string with key_configured set to
    true; a sensitive key with a falsy or absent value, and its
    key_configured entry, are returned as stored; every other key is
    returned unchanged; and two states that differ only in truthy values
    of the sensitive keys give identical responses. *)
Theorem api_settings_get_masks_secrets (s1 s2 : gmap string json) :
  differ_only_in_secrets s1 s2 ->
  api_settings_get s1 = api_settings_get s2 /\
  (forall k, k ∈ sensitive_keys ->
     api_settings_get s1 !! k = hide_val (s1 !! k) /\
     api_settings_get s1 !! configured_key k =
       hide_cfg (s1 !! k) (s1 !! configured_key k)) /\
  (forall j, j ∉ sensitive_keys ->
     (forall k, k ∈ sensitive_keys -> j <> configured_key k) ->
     api_settings_get s1 !! j = s1 !! j).
Proof.
  intros [Hstrip Hsec]. pose proof sensitive_keys_good as Hg.
  rewrite Forall_forall in Hsec.
  split; [|split].
  - apply map_eq. intros j. unfold api_settings_get.
    destruct (decide (j ∈ sensitive_keys)) as [Hj|Hj].
    { rewrite !hide_fold_key by done. apply hide_val_agree, Hsec, Hj. }
    destruct (decide (Exists (fun k => j = configured_key k) sensitive_keys))
      as [Hc|Hc].
    + apply Exists_exists in Hc as [k [Hk ->]].
      rewrite !hide_fold_cfg by done.
      assert (configured_key k ∉ sensitive_keys) as Hck.
      { intros Hin. by apply (good_keys_cfg_ne sensitive_keys k (configured_key k)). }
      rewrite <- (strip_secrets_lookup s1 _ Hck).
      rewrite <- (strip_secrets_lookup s2 _ Hck).
      rewrite Hstrip. apply hide_cfg_agree, Hsec, Hk.
    + assert (forall k, k ∈ sensitive_keys -> j <> configured_key k) as Hc'.
      { intros k Hk ->. apply Hc, Exists_exists. by exists k. }
      rewrite !hide_fold_other by done.
      rewrite <- (strip_secrets_lookup s1 _ Hj).
      rewrite <- (strip_secrets_lookup s2 _ Hj). by rewrite Hstrip.
  - intros k Hk. unfold api_settings_get.
    split; [by apply hide_fold_key|by apply hide_fold_cfg].
  - intros j Hj Hc. by apply hide_fold_other.
Qed.

Definition secrets_a : gmap string json :=
  <["openai_api_key" := JStr "sk-one"]>
  (<["home_assistant_token" := JStr "abc"]>
   (<["voice_enabled" := JBool true]> ∅)).
Definition secrets_b : gmap string json :=
  <["openai_api_key" := JStr "sk-two"]>
  (<["home_assistant_token" := JStr "tok"]>
   (<["voice_enabled" := JBool true]> ∅)).

Lemma api_settings_get_masks_secrets_witness :
  differ_only_in_secrets secrets_a secrets_b /\
  api_settings_get secrets_a = api_settings_get secrets_b.
Proof.
  assert (differ_only_in_secrets secrets_a secrets_b) as H.
  { split; [vm_compute; reflexivity|].
    cbv [sensitive_keys].
    repeat (apply List.Forall_cons;
            [first [right; vm_compute; reflexivity
                   |left; vm_compute; reflexivity]|]).
    apply List.Forall_nil. }
  split; [exact H|].
  exact (proj1 (api_settings_get_masks_secrets secrets_a secrets_b H)).
Defined.

(** C9 counterexample: after a POST that stores
    [openai_api_key_configured = true] (for instance a form echoing a
    previous GET response), the stored key is empty yet GET reports it as
    configured; the claim says the flag is true exactly when the stored
    value is non-empty. *)
Lemma get_reports_configured_without_secret :
  let h := (api_settings_post (mk_hub default_settings None)
              (Some (JObj [("openai_api_key_configured", JBool true)]))
              SaveOk).2 in
  settings h !! "openai_api_key" = Some (JStr "") /\
  api_settings_get (settings h) !! "openai_api_key" = Some (JStr "") /\
  api_settings_get (settings h) !! "openai_api_key_configured" =
    Some (JBool true).
Proof. vm_compute. repeat split; reflexivity. Qed.

(** C10: POST /api/settings writes a body key exactly when its value is
    truthy or the key is not yet stored; a falsy value for a stored key
    leaves it unchanged, and keys absent from the body are untouched.
    When the save fails, the settings are not changed at all. *)
Theorem api_settings_post_merge (h h' : hub) (l : list (string * json))
  (io : save_io) (r : post_resp) :
  api_settings_post h (Some (JObj l)) io = (r, h') ->
  (r = PostSuccess /\
   forall k, settings h' !! k =
     match dict_of_pairs l !! k with
     | Some v => if truthy v || bool_decide (settings h !! k = None)
                 then Some v else settings h !! k
     | None => settings h !! k
     end) \/
  (r = PostSaveFailed /\ settings h' = settings h).
Proof.
  intros Hpost.
  assert (api_settings_post h (Some (JObj l)) io =
          match save_settings h (merge_post (settings h) (dict_of_pairs l)) io with
          | (true, h') => (PostSuccess, h')
          | (false, h') => (PostSaveFailed, h')
          end) as Hred by (destruct l; reflexivity).
  rewrite Hred in Hpost.
  destruct io; cbn -[merge_post dict_of_pairs] in Hpost;
    injection Hpost as <- <-.
  - left. split; [done|]. intros k. cbn [settings]. apply merge_post_lookup.
  - right. done.
  - right. done.
Qed.

Lemma api_settings_post_merge_witness :
  let h := mk_hub default_settings None in
  let body := [("openai_api_key", JStr ""); ("voice_enabled", JBool false);
               ("weather_location", JStr "Brisbane")] in
  api_settings_post h (Some (JObj body)) SaveOk =
    (PostSuccess, (api_settings_post h (Some (JObj body)) SaveOk).2) /\
  ((PostSuccess = PostSuccess /\ forall k,
      settings (api_settings_post h (Some (JObj body)) SaveOk).2 !! k =
      match dict_of_pairs body !! k with
      | Some v => if truthy v || bool_decide (settings h !! k = None)
                  then Some v else settings h !! k
      | None => settings h !! k
      end) \/
   (PostSuccess = PostSaveFailed /\
    settings (api_settings_post h (Some (JObj body)) SaveOk).2 = settings h)).
Proof.
  intros h body.
  assert (Heq : api_settings_post h (Some (JObj body)) SaveOk =
    (PostSuccess, (api_settings_post h (Some (JObj body)) SaveOk).2))
    by reflexivity.
  split; [exact Heq|].
  exact (api_settings_post_merge h _ body SaveOk PostSuccess Heq).
Defined.

End SettingsClaims.

Module SensorFacts.
Import Sensors.

Lemma round1_bounds (x : Q) (a b : Z) :
  (inject_Z a <= x)%Q -> (x <= inject_Z b)%Q ->
  (inject_Z a <= round1 x)%Q /\ (round1 x <= inject_Z b)%Q.
Proof.
  intros Ha Hb. unfold round1, Qle in *. simpl in *.
  set (p := Qnum x) in *. set (d := Zpos (Qden x)) in *.
  assert (Hd : (0 < d)%Z) by (unfold d; lia).
  pose proof (Z.div_mod (10 * p) d ltac:(lia)) as Hdm.
  pose proof (Z.mod_pos_bound (10 * p) d Hd) as Hr.
  set (n := ((10 * p) / d)%Z) in *. set (r := ((10 * p) mod d)%Z) in *.
  assert (10 * a <= n)%Z by nia. assert (n <= 10 * b)%Z by nia.
  destruct (Z.compare_spec (2 * r) d) as [Hc|Hc|Hc];
    [destruct (Z.even n)| |]; simpl; split; try nia.
Qed.

Lemma dht_loop_keeps_other_fields hw off a n data tr :
  light_level (dht_loop hw off a n data tr).1 = light_level data /\
  gas_detected (dht_loop hw off a n data tr).1 = gas_detected data.
Proof.
  revert a data tr. induction n as [|n IH]; intros a data tr; simpl; [done|].
  destruct (dht_attempt hw a) as [[t|] [h|]| |]; try apply IH.
  destruct (add_offset t off); [done|apply IH].
Qed.

Lemma read_gas_light hw p data :
  light_level (read_gas hw p data) = light_level data.
Proof. unfold read_gas. by destruct (gas_read hw). Qed.

End SensorFacts.

Module SensorClaims.
Import Sensors SensorFacts.

(** C1: without the hardware libraries every [read_sensors] call returns
    a reading (no exception) whose temperature is present and within
    [15, 35] and whose humidity is present and within [30, 70]. *)
Theorem simulated_reading_in_bounds (now : string) (d : sim_draws)
  (sens : option sensors_dict) (off : json) (hw : hw_inputs) :
  valid_draws d ->
  exists r, (read_sensors false now d sens off hw).1 = Some r /\
    (exists t, temperature r = Some t /\ (15 <= t)%Q /\ (t <= 35)%Q) /\
    (exists h, humidity r = Some h /\ (30 <= h)%Q /\ (h <= 70)%Q).
Proof.
  intros (Ht0 & Ht1 & Hh0 & Hh1 & Hg & Hl & Ha).
  unfold read_sensors, read_simulated, choice. simpl negb. cbv iota.
  destruct (i_gas d) as [|[|[|[|ig]]]]; [..|lia];
  destruct (i_light d) as [|[|[|il]]]; try lia;
  destruct (i_air d) as [|[|[|ia]]]; try lia;
  (eexists; split; [reflexivity|]; simpl;
   split; eexists; split; try reflexivity;
   [apply (round1_bounds _ 15 35)|apply (round1_bounds _ 30 70)];
   unfold uniform, inject_Z; lra).
Qed.

Definition sample_draws : sim_draws := mk_draws (99 # 100) 0 3 1 2.

Lemma simulated_reading_in_bounds_witness :
  valid_draws sample_draws /\
  exists r, (read_sensors false "now" sample_draws None (JNum 0)
               (mk_hw (fun _ => DhtOtherError) PinError PinError)).1 = Some r /\
    (exists t, temperature r = Some t /\ (15 <= t)%Q /\ (t <= 35)%Q) /\
    (exists h, humidity r = Some h /\ (30 <= h)%Q /\ (h <= 70)%Q).
Proof.
  assert (H : valid_draws sample_draws).
  { unfold valid_draws; simpl. repeat split; (lia || (unfold Qle, Qlt; simpl; lia)). }
  split; [exact H|].
  exact (simulated_reading_in_bounds "now" sample_draws None (JNum 0)
           (mk_hw (fun _ => DhtOtherError) PinError PinError) H).
Defined.

(** C8 (as amended): a simulated reading has light_level "dark", "dim"
    or "bright"; a hardware reading has "bright" or "dark" when the light
    pin is configured and [GPIO.input] succeeds, and keeps the initial
    "unknown" otherwise (no sensors set, no light pin, or a read error). *)
Theorem light_level_values (rpi : bool) (now : string) (d : sim_draws)
  (sens : option sensors_dict) (off : json) (hw : hw_inputs)
  (r : reading) (tr : list hw_event) :
  read_sensors rpi now d sens off hw = (Some r, tr) ->
  (rpi = false -> light_level r ∈ ["dark"; "dim"; "bright"]) /\
  (rpi = true ->
     (exists sd v, sens = Some sd /\ s_light_pin sd <> None /\
        light_read hw = PinLevel v /\
        light_level r = if Z.eqb v 0 then "dark" else "bright") \/
     ((sens = None \/ exists sd, sens = Some sd /\
        (s_light_pin sd = None \/ light_read hw = PinError)) /\
      light_level r = "unknown")).
Proof.
  intros Hrd. unfold read_sensors in Hrd. destruct rpi; cbn [negb] in Hrd.
  - split; [discriminate|intros _].
    destruct (read_hardware sens off hw (initial_reading now)) as [r0 tr0]
      eqn:Ehw; injection Hrd as -> ->.
    rename Ehw into Hrd. unfold read_hardware in Hrd.
    destruct sens as [sd|];
      [|injection Hrd as <- <-; right; split; [by left|done]].
    destruct (if s_dht22 sd then _ else _) as [d1 tr1] eqn:E1.
    assert (light_level d1 = "unknown") as Hd1.
    { destruct (s_dht22 sd); cbv iota beta in E1; [|by injection E1 as <- <-].
      pose proof (proj1 (dht_loop_keeps_other_fields hw off 0 max_retries
                           (initial_reading now) [])) as K.
      rewrite E1 in K. exact K. }
    destruct (match s_gas_pin sd with Some _ => _ | None => _ end)
      as [d2 tr2] eqn:E2.
    assert (light_level d2 = "unknown") as Hd2.
    { destruct (s_gas_pin sd); injection E2 as <- <-;
        [by rewrite read_gas_light|done]. }
    destruct (s_light_pin sd) as [lp|] eqn:El.
    + injection Hrd as <- <-. unfold read_light.
      destruct (light_read hw) as [v|] eqn:Er.
      * left. exists sd, v. rewrite El. done.
      * right. split; [right; exists sd; split; [done|by right]|done].
    + injection Hrd as <- <-. right. split; [right; exists sd; split; [done|by left]|done].
  - split; [intros _|discriminate].
    unfold read_simulated, choice in Hrd.
    destruct (([false; false; false; true] : list bool) !! i_gas d);
      destruct ((["dark"; "dim"; "bright"] : list string) !! i_light d)
        as [l|] eqn:El;
      destruct ((["excellent"; "good"; "moderate"] : list string) !! i_air d);
      try discriminate.
    injection Hrd as <- _. simpl.
    by apply list_elem_of_lookup_2 in El.
Qed.

Lemma light_level_values_witness :
  read_sensors true "now" sample_draws
    (Some (mk_sensors true (Some 17%Z) (Some 27%Z))) (JNum 0)
    (mk_hw (fun _ => DhtValues (Some 21%Q) (Some 55%Q)) (PinLevel 0%Z) (PinLevel 1%Z))
  = (Some (mk_reading "now" (Some (210 # 10)) (Some (550 # 10)) false "bright" "good"),
     [ReadDht 0; ReadPin 17%Z; ReadPin 27%Z]) /\
  ((true = false -> "bright" ∈ ["dark"; "dim"; "bright"]) /\
   (true = true ->
     (exists sd v, Some (mk_sensors true (Some 17%Z) (Some 27%Z)) = Some sd /\
        s_light_pin sd <> None /\ PinLevel 1%Z = PinLevel v /\
        "bright" = if Z.eqb v 0 then "dark" else "bright") \/
     ((Some (mk_sensors true (Some 17%Z) (Some 27%Z)) = None \/ exists sd,
        Some (mk_sensors true (Some 17%Z) (Some 27%Z)) = Some sd /\
        (s_light_pin sd = None \/ PinLevel 1%Z = PinError)) /\
      "bright" = "unknown"))).
Proof.
  assert (H : read_sensors true "now" sample_draws
    (Some (mk_sensors true (Some 17%Z) (Some 27%Z))) (JNum 0)
    (mk_hw (fun _ => DhtValues (Some 21%Q) (Some 55%Q)) (PinLevel 0%Z) (PinLevel 1%Z))
  = (Some (mk_reading "now" (Some (210 # 10)) (Some (550 # 10)) false "bright" "good"),
     [ReadDht 0; ReadPin 17%Z; ReadPin 27%Z])) by (vm_compute; reflexivity).
  split; [exact H|].
  exact (light_level_values true "now" sample_draws _ (JNum 0) _ _ _ H).
Defined.

(** C8 counterexample: on the hardware branch, when [setup_hardware] left
    [self.sensors] empty (its [except] sets [{}]), the reading keeps
    light_level "unknown", outside {dark, dim, bright}. *)
Lemma light_level_unknown_on_hardware :
  option_map light_level
    (read_sensors true "now" sample_draws (Some (mk_sensors false None None))
       (JNum 0) (mk_hw (fun _ => DhtOtherError) PinError PinError)).1
  = Some "unknown".
Proof. reflexivity. Qed.

(** C4 (code bug): when every DHT22 attempt returns None values instead of
    raising, the three reads happen back to back with no sleep, while a
    failing attempt that raises is followed by the 2-second delay. Both
    runs end with temperature and humidity None and no exception. *)
Theorem dht_none_reads_not_delayed :
  read_sensors true "now" sample_draws (Some (mk_sensors true None None))
    (JNum 0) (mk_hw (fun _ => DhtValues None None) PinError PinError)
  = (Some (initial_reading "now"), [ReadDht 0; ReadDht 1; ReadDht 2]) /\
  read_sensors true "now" sample_draws (Some (mk_sensors true None None))
    (JNum 0) (mk_hw (fun _ => DhtRuntimeError) PinError PinError)
  = (Some (initial_reading "now"),
     [ReadDht 0; Sleep 2; ReadDht 1; Sleep 2; ReadDht 2]).
Proof. split; reflexivity. Qed.

End SensorClaims.

Module WeatherClaims.
Import Weather.

Lemma default_weather_source loc now :
  default_weather loc now !! "source" = Some (JStr "Default").
Proof. reflexivity. Qed.

(** C6 (as amended): [get_current] always returns a dict (it has no
    failing path). With the source 'openweather' it returns the default
    weather (source 'Default') when the API key is missing, when the
    request raises or when building the dict from a 200 response raises;
    it returns the freshly built dict on a good 200 response and caches
    it; and on any other status it returns the cached [current_weather]
    unchanged. That cache is the empty dict on a freshly created service,
    and a call with the source 'qld_radar' also replaces it with the
    reading it returns. *)
Theorem get_current_openweather (ws : weather_service) (location : json)
  (http : http_outcome) (now : string) :
  is_source (weather_source ws) "openweather" = true ->
  let loc := if truthy location then location else ws_location ws in
  ((truthy (api_key ws) = false \/ http = HttpRaises \/
    http = HttpStatus 200 None) ->
     (get_current ws location http now).1 = default_weather loc now /\
     (get_current ws location http now).1 !! "source" =
       Some (JStr "Default")) /\
  (truthy (api_key ws) = true -> forall w, http = HttpStatus 200 (Some w) ->
     (get_current ws location http now).1 = w) /\
  (truthy (api_key ws) = true -> forall code p, code <> 200%Z ->
     http = HttpStatus code p ->
     (get_current ws location http now).1 = current_weather ws) /\
  (truthy (api_key ws) = true -> forall w, http = HttpStatus 200 (Some w) ->
     current_weather (get_current ws location http now).2 = w) /\
  (forall s env code p,
     is_source (weather_source (weather_service_init s env)) "openweather" = true ->
     truthy (api_key (weather_service_init s env)) = true -> code <> 200%Z ->
     (get_current (weather_service_init s env) location (HttpStatus code p) now).1 = ∅) /\
  (forall ws', is_source (weather_source ws') "qld_radar" = true ->
     current_weather (get_current ws' location http now).2 =
     (get_current ws' location http now).1).
Proof.
  intros Hsrc loc. unfold get_current. rewrite Hsrc. fold loc.
  unfold get_openweather_current, openweather_try.
  split; [|split; [|split; [|split; [|split]]]].
  - intros Hcase.
    assert ((if negb (truthy (api_key ws)) then (default_weather loc now, ws)
             else match match http with
                        | HttpRaises => None
                        | HttpStatus code parsed =>
                            if Z.eqb code 200 then
                              match parsed with
                              | Some w => Some (mk_ws (api_key ws) (ws_location ws)
                                                  (weather_source ws) w)
                              | None => None
                              end
                            else Some ws
                        end with
                  | None => (default_weather loc now, ws)
                  | Some ws' => (current_weather ws', ws')
                  end).1 = default_weather loc now) as ->.
    { destruct Hcase as [->|[->| ->]]; [done|..];
        destruct (truthy (api_key ws)); done. }
    split; [done|apply default_weather_source].
  - intros Hk w ->. rewrite Hk. done.
  - intros Hk code p Hc ->. rewrite Hk. simpl.
    destruct (Z.eqb_spec code 200); [done|reflexivity].
  - intros Hk w ->. rewrite Hk. done.
  - intros s env code p Hs Hk Hc. cbv zeta. rewrite Hs, Hk. cbn [negb].
    by rewrite (proj2 (Z.eqb_neq code 200) Hc).
  - intros ws' Hq. cbv zeta.
    destruct (weather_source ws') as [| | |src| |]; try discriminate Hq.
    apply String.eqb_eq in Hq. subst src. reflexivity.
Qed.

Lemma get_current_openweather_witness :
  let ws := weather_service_init
              (<["weather_api_key" := JStr "key"]> ∅) "" in
  is_source (weather_source ws) "openweather" = true /\
  (get_current ws JNull HttpRaises "now").1 =
    default_weather (JStr "Gold Coast, QLD") "now".
Proof.
  intros ws.
  assert (H : is_source (weather_source ws) "openweather" = true)
    by reflexivity.
  split; [exact H|].
  exact (proj1 (proj1 (get_current_openweather ws JNull HttpRaises "now" H)
                  (or_intror (or_introl eq_refl)))).
Defined.

(** C6 counterexample: a fresh service with an API key whose request gets
    status 500 returns [self.current_weather], the empty dict, and not
    the default weather. *)
Lemma get_current_error_status_returns_empty :
  let ws := weather_service_init
              (<["weather_api_key" := JStr "key"]> ∅) "" in
  (get_current ws JNull (HttpStatus 500 None) "now").1 = ∅ /\
  (get_current ws JNull (HttpStatus 500 None) "now").1 !! "source" = None.
Proof. split; reflexivity. Qed.

End WeatherClaims.

Module PhotosClaims.
Import Photos.

Lemma request_count_app (t1 t2 : list photo_event) :
  request_count (t1 ++ t2) = (request_count t1 + request_count t2)%nat.
Proof. unfold request_count. by rewrite filter_app, length_app. Qed.

Lemma send_count refresh resp tok nref tr :
  (request_count (send refresh resp tok nref tr).2 <= request_count tr + 2)%nat.
Proof.
  unfold send. cbv zeta.
  repeat case_match; cbn [snd]; rewrite ?request_count_app;
    unfold request_count; simpl; lia.
Qed.

(** C7: [_make_request] issues the request at most twice. When the first
    response is 401 it calls the token refresh once: if the refresh
    succeeds, it repeats the request exactly once with the new token and
    returns that second response's result; if it fails, it returns a
    failure with status 401 after the single request. *)
Theorem make_request_retry_once (token : string) (expired : bool)
  (refresh : nat -> option string) (resp : nat -> req_outcome)
  (res : api_result) (tr : list photo_event) :
  make_request token expired refresh resp = (res, tr) ->
  (request_count tr <= 2)%nat /\
  (forall ok, resp 0 = ReqResponse 401 ok -> request_count tr <> 0%nat ->
     let i := if expired then 1%nat else 0%nat in
     (refresh i = None -> res = mk_result false 401 /\ request_count tr = 1%nat) /\
     (forall t', refresh i = Some t' ->
        request_count tr = 2%nat /\ last tr = Some (Request t') /\
        res = finish (resp 1%nat))).
Proof.
  intros Hm. split.
  - unfold make_request in Hm. destruct token as [|c t].
    { injection Hm as <- <-. vm_compute. lia. }
    destruct expired; [destruct (refresh 0%nat) as [t0|]|].
    + pose proof (send_count refresh resp t0 1 [Refresh]) as H.
      rewrite Hm in H. exact H.
    + injection Hm as <- <-. vm_compute. lia.
    + pose proof (send_count refresh resp (String c t) 0 []) as H.
      rewrite Hm in H. exact H.
  - intros ok H401 Hnz i.
    unfold make_request in Hm. destruct token as [|c t].
    { injection Hm as <- <-. done. }
    assert (forall tok nref tr0, request_count tr0 = 0%nat ->
              send refresh resp tok nref tr0 = (res, tr) ->
              (refresh nref = None -> res = mk_result false 401 /\
                                      request_count tr = 1%nat) /\
              (forall t', refresh nref = Some t' ->
                 request_count tr = 2%nat /\ last tr = Some (Request t') /\
                 res = finish (resp 1%nat))) as Hsend.
    { intros tok nref tr0 H0 Hs. unfold send in Hs. rewrite H401 in Hs.
      simpl in Hs. split.
      - intros Hn. rewrite Hn in Hs. injection Hs as <- <-.
        rewrite !request_count_app, H0. done.
      - intros t' Ht. rewrite Ht in Hs. injection Hs as <- <-.
        rewrite !request_count_app, H0. split; [done|].
        rewrite last_app. done. }
    subst i. destruct expired.
    + destruct (refresh 0%nat) as [t0|].
      * apply (Hsend t0 1%nat [Refresh]); [reflexivity|exact Hm].
      * injection Hm as <- <-. done.
    + apply (Hsend (String c t) 0%nat []); [reflexivity|exact Hm].
Qed.

Lemma make_request_retry_once_witness :
  make_request "tok" false (fun _ => Some "fresh")
    (fun n => if Nat.eqb n 0 then ReqResponse 401 true else ReqResponse 200 true)
  = (mk_result true 200, [Request "tok"; Refresh; Request "fresh"]) /\
  (request_count [Request "tok"; Refresh; Request "fresh"] <= 2)%nat.
Proof.
  assert (H : make_request "tok" false (fun _ => Some "fresh")
    (fun n => if Nat.eqb n 0 then ReqResponse 401 true else ReqResponse 200 true)
    = (mk_result true 200, [Request "tok"; Refresh; Request "fresh"]))
    by reflexivity.
  split; [exact H|].
  exact (proj1 (make_request_retry_once _ _ _ _ _ _ H)).
Defined.

End PhotosClaims.

Module VoiceClaims.
Import Voice.

Lemma contains_phrase_not_command (u : string) :
  str_contains "turn on the light" u = true -> lookup_command u commands = None.
Proof.
  intros H. unfold commands. simpl.
  destruct (String.eqb_spec u "open xbox live") as [->|_]; [discriminate H|].
  destruct (String.eqb_spec u "load youtube") as [->|_]; [discriminate H|].
  reflexivity.
Qed.

(** C3 (as amended): for an utterance containing "turn on the light"
    neither handler emits a device action: the socket handler emits only
    the echo "Received command: <utterance>" and [execute_command] only
    prints and speaks its "didn't understand" reply. *)
Theorem turn_on_light_not_dispatched (u now : string) (post : post_outcome) :
  str_contains "turn on the light" u = true ->
  handle_voice_command u now =
    [Emit "voice_response"
       [("command", u); ("response", "Received command: " +:+ u);
        ("timestamp", now)]] /\
  execute_command u post =
    [Print "I'm sorry, I didn't understand that command.";
     Speak "I'm sorry, I didn't understand that command."].
Proof.
  intros H. split.
  - destruct u; [discriminate H|reflexivity].
  - unfold execute_command. by rewrite contains_phrase_not_command.
Qed.

Lemma turn_on_light_not_dispatched_witness :
  str_contains "turn on the light" "please turn on the light" = true /\
  execute_command "please turn on the light" (PostStatus 200) =
    [Print "I'm sorry, I didn't understand that command.";
     Speak "I'm sorry, I didn't understand that command."].
Proof.
  assert (H : str_contains "turn on the light" "please turn on the light" = true)
    by reflexivity.
  split; [exact H|].
  exact (proj2 (turn_on_light_not_dispatched _ "now" (PostStatus 200) H)).
Defined.

(** C3 counterexample: the utterance "turn on the light" yields only the
    echo on the socket and the "didn't understand" reply from
    [execute_command]; no light.turn_on action is produced. *)
Lemma turn_on_light_echo_only :
  handle_voice_command "turn on the light" "now" =
    [Emit "voice_response"
       [("command", "turn on the light");
        ("response", "Received command: turn on the light");
        ("timestamp", "now")]] /\
  execute_command "turn on the light" (PostStatus 200) =
    [Print "I'm sorry, I didn't understand that command.";
     Speak "I'm sorry, I didn't understand that command."].
Proof. split; reflexivity. Qed.

End VoiceClaims.

(* ------------------------------------------------------------------ *)
(** ** Further properties of the code *)

Module SensorExtras.
Import Sensors SensorFacts.

Lemma dht_loop_keeps_air hw off a n data tr :
  air_quality (dht_loop hw off a n data tr).1 = air_quality data /\
  gas_detected (dht_loop hw off a n data tr).1 = gas_detected data.
Proof.
  revert a data tr. induction n as [|n IH]; intros a data tr; simpl; [done|].
  destruct (dht_attempt hw a) as [[t|] [h|]| |]; try apply IH.
  destruct (add_offset t off); [done|apply IH].
Qed.

Lemma dht_loop_paired hw off a n data tr :
  (temperature data = None <-> humidity data = None) ->
  (temperature (dht_loop hw off a n data tr).1 = None <->
   humidity (dht_loop hw off a n data tr).1 = None).
Proof.
  revert a data tr. induction n as [|n IH]; intros a data tr H; simpl; [done|].
  destruct (dht_attempt hw a) as [[t|] [h|]| |]; try (apply IH; done).
  destruct (add_offset t off); [simpl; done|apply IH; done].
Qed.

Lemma read_hardware_pres (P : reading -> Prop) sens off hw data :
  P data ->
  (forall a n d tr, P d -> P (dht_loop hw off a n d tr).1) ->
  (forall p d, P d -> P (read_gas hw p d)) ->
  (forall p d, P d -> P (read_light hw p d)) ->
  P (read_hardware sens off hw data).1.
Proof.
  intros H0 Hd Hg Hl. unfold read_hardware.
  destruct sens as [sd|]; [|done].
  assert (H1 : P (if s_dht22 sd then dht_loop hw off 0 max_retries data []
                  else (data, [])).1) by (destruct (s_dht22 sd); [apply Hd|]; done).
  destruct (if s_dht22 sd then _ else _) as [d1 t1]. simpl in H1.
  assert (H2 : P (match s_gas_pin sd with
                  | Some p => (read_gas hw p d1, (t1 ++ [ReadPin p])%list)
                  | None => (d1, t1)
                  end).1) by (destruct (s_gas_pin sd); [apply Hg|]; done).
  destruct (match s_gas_pin sd with Some _ => _ | None => _ end) as [d2 t2].
  simpl in H2. destruct (s_light_pin sd); simpl; [apply Hl|]; done.
Qed.

(** On the hardware branch the gas and air-quality fields move together:
    gas_detected is true exactly when air_quality is 'poor', and
    air_quality is 'good' or 'poor'. *)
Theorem hardware_gas_matches_air_quality now d sens off hw :
  match (read_sensors true now d sens off hw).1 with
  | Some r => (gas_detected r = true <-> air_quality r = "poor") /\
              (air_quality r = "good" \/ air_quality r = "poor")
  | None => False
  end.
Proof.
  unfold read_sensors. cbn [negb].
  pose proof (read_hardware_pres
    (fun r => (gas_detected r = true <-> air_quality r = "poor") /\
              (air_quality r = "good" \/ air_quality r = "poor"))
    sens off hw (initial_reading now)) as H.
  destruct (read_hardware sens off hw (initial_reading now)) as [r tr].
  apply H.
  - simpl. split; [split; discriminate|by left].
  - intros a n d1 tr1. destruct (dht_loop_keeps_air hw off a n d1 tr1) as [-> ->]. done.
  - intros p d1 Hd1. unfold read_gas. destruct (gas_read hw) as [v|]; [|done]. simpl.
    destruct (Z.eqb v 0); simpl; split; try (by left); try (by right);
      split; done.
  - intros p d1. unfold read_light. by destruct (light_read hw).
Qed.

(** Every reading read_sensors returns, simulated or from hardware, has
    temperature and humidity both set or both None. *)
Theorem reading_temperature_humidity_paired rpi now d sens off hw :
  match (read_sensors rpi now d sens off hw).1 with
  | Some r => temperature r = None <-> humidity r = None
  | None => True
  end.
Proof.
  unfold read_sensors. destruct rpi; cbn [negb].
  - pose proof (read_hardware_pres
      (fun r => temperature r = None <-> humidity r = None)
      sens off hw (initial_reading now)) as H.
    destruct (read_hardware sens off hw (initial_reading now)) as [r tr].
    apply H.
    + done.
    + intros a n d1 tr1. apply dht_loop_paired.
    + intros p d1. unfold read_gas. by destruct (gas_read hw).
    + intros p d1. unfold read_light. by destruct (light_read hw).
  - unfold read_simulated.
    repeat case_match; simpl in *; try done.
    match goal with H : Some _ = Some _ |- _ => injection H as <- end.
    simpl. split; intros Hc; discriminate Hc.
Qed.

(** A temp_offset that is not a number (a string, null, a list or an
    object, as POST /api/settings can store) makes every DHT22 attempt
    raise TypeError even when the sensor returns values: the reader reads
    three times with the 2-second sleep between reads and reports
    temperature and humidity None. *)
Theorem non_numeric_offset_drops_dht now d sd hw off :
  s_dht22 sd = true ->
  (forall a, (a < 3)%nat -> exists t h, dht_attempt hw a = DhtValues (Some t) (Some h)) ->
  (forall t, add_offset t off = None) ->
  exists r tr,
    read_sensors true now d (Some sd) off hw =
      (Some r, [ReadDht 0; Sleep 2; ReadDht 1; Sleep 2; ReadDht 2] ++ tr)%list /\
    temperature r = None /\ humidity r = None.
Proof.
  intros Hs Hv Hoff.
  destruct (Hv 0%nat ltac:(lia)) as (t0 & h0 & E0).
  destruct (Hv 1%nat ltac:(lia)) as (t1 & h1 & E1).
  destruct (Hv 2%nat ltac:(lia)) as (t2 & h2 & E2).
  assert (Hloop : dht_loop hw off 0 max_retries (initial_reading now) [] =
                  (initial_reading now, [ReadDht 0; Sleep 2; ReadDht 1; Sleep 2; ReadDht 2])).
  { unfold max_retries. simpl. rewrite E0, Hoff. simpl. rewrite E1, Hoff. simpl.
    rewrite E2, Hoff. reflexivity. }
  unfold read_sensors, read_hardware. cbn [negb]. rewrite Hs, Hloop.
  destruct (s_gas_pin sd) as [p|]; destruct (s_light_pin sd) as [q|]; simpl.
  - eexists _, [ReadPin p; ReadPin q]. split; [reflexivity|].
    unfold read_light, read_gas. destruct (gas_read hw), (light_read hw); done.
  - eexists _, [ReadPin p]. split; [reflexivity|].
    unfold read_gas. destruct (gas_read hw); done.
  - eexists _, [ReadPin q]. split; [reflexivity|].
    unfold read_light. destruct (light_read hw); done.
  - exists (initial_reading now), []. split; [reflexivity|done].
Qed.

Lemma non_numeric_offset_drops_dht_witness :
  exists r tr,
    read_sensors true "now" (mk_draws 0 0 0 0 0) (Some (mk_sensors true (Some 17%Z) (Some 27%Z)))
      (JStr "1") (mk_hw (fun _ => DhtValues (Some 21%Q) (Some 50%Q)) (PinLevel 0) (PinLevel 1)) =
      (Some r, [ReadDht 0; Sleep 2; ReadDht 1; Sleep 2; ReadDht 2] ++ tr)%list /\
    temperature r = None /\ humidity r = None.
Proof.
  apply (non_numeric_offset_drops_dht "now" (mk_draws 0 0 0 0 0)
           (mk_sensors true (Some 17%Z) (Some 27%Z))
           (mk_hw (fun _ => DhtValues (Some 21%Q) (Some 50%Q)) (PinLevel 0) (PinLevel 1))
           (JStr "1")).
  - reflexivity.
  - intros a _. exists 21%Q, 50%Q. reflexivity.
  - intros t. reflexivity.
Defined.

End SensorExtras.

Module SettingsExtras.
Import Settings SettingsFacts.

Lemma merge_post_same old nd k :
  nd !! k = old !! k -> merge_post old nd !! k = old !! k.
Proof.
  intros H. rewrite merge_post_lookup, H.
  destruct (old !! k) as [v|]; [|done].
  by destruct (truthy v || _).
Qed.

Lemma merge_post_hidden old nd k :
  nd !! k = hide_val (old !! k) -> merge_post old nd !! k = old !! k.
Proof.
  intros H. rewrite merge_post_lookup, H. unfold hide_val.
  destruct (old !! k) as [v|] eqn:E; [|done].
  rewrite (bool_decide_false (Some v = None)) by done.
  destruct (truthy v) eqn:T; [done|]. by rewrite T.
Qed.

Lemma merge_post_cfg old nd c :
  nd !! configured_key c = hide_cfg (old !! c) (old !! configured_key c) ->
  merge_post old nd !! configured_key c =
  hide_cfg (old !! c) (old !! configured_key c).
Proof.
  intros H. destruct (old !! c) as [v|] eqn:E; simpl in H |- *.
  - destruct (truthy v) eqn:T.
    + rewrite merge_post_lookup, H. done.
    + by apply merge_post_same.
  - by apply merge_post_same.
Qed.

Lemma body_of_response (g : gmap string json) :
  truthy (dump g) = false /\ g = ∅ \/ truthy (dump g) = true.
Proof.
  unfold dump. simpl. destruct (map_to_list g) eqn:E.
  - left. split; [done|]. by apply map_to_list_empty_iff.
  - by right.
Qed.

(** Sending the GET /api/settings response back as a POST body (with the
    save succeeding) changes no stored value except the key + '_configured'
    flags of the sensitive keys holding a truthy value, which become true:
    the blanked secrets are not written back. *)
Theorem settings_echo_round_trip (h : hub) :
  let '(r, h') := api_settings_post h
                    (Some (dump (api_settings_get (settings h)))) SaveOk in
  r = PostSuccess /\
  (forall k, k ∉ (configured_key <$> sensitive_keys) ->
             settings h' !! k = settings h !! k) /\
  (forall c, c ∈ sensitive_keys ->
             settings h' !! configured_key c =
             hide_cfg (settings h !! c) (settings h !! configured_key c)).
Proof.
  set (s := settings h). set (g := api_settings_get s).
  assert (Hpost : api_settings_post h (Some (dump g)) SaveOk =
                  (PostSuccess, mk_hub (merge_post s g)
                                  (Some (Some (dump (merge_post s g)))))).
  { unfold api_settings_post. cbn beta iota.
    destruct (body_of_response g) as [[Hb Hg] | Hb]; rewrite Hb; cbn beta iota.
    - rewrite Hg. reflexivity.
    - unfold dump. rewrite dict_of_pairs_map_to_list. reflexivity. }
  rewrite Hpost. cbn beta iota. cbn [settings]. split; [done|split].
  - intros k Hk. unfold g, api_settings_get.
    destruct (decide (k ∈ sensitive_keys)) as [Hs|Hs].
    + apply merge_post_hidden.
      by apply hide_fold_key; [apply sensitive_keys_good|].
    + apply merge_post_same. apply hide_fold_other; [done|].
      intros c Hc ->. apply Hk. apply list_elem_of_fmap. by exists c.
  - intros c Hc. unfold g, api_settings_get. apply merge_post_cfg.
    by apply hide_fold_cfg; [apply sensitive_keys_good|].
Qed.

(** A POST /api/settings whose JSON body is falsy (null, {}, [], '', 0,
    false) writes the current settings back unchanged; a truthy body that
    is not an object (a list, a string, a number, true) and a request
    without a JSON body (on which get_json() raises) answer with an error
    before any write. *)
Theorem api_settings_post_body_shapes (h : hub) (io : save_io) :
  (forall v, truthy v = false ->
     api_settings_post h (Some v) io =
     (if (save_settings h (settings h) io).1 then PostSuccess else PostSaveFailed,
      (save_settings h (settings h) io).2)) /\
  (forall v, truthy v = true -> (forall l, v <> JObj l) ->
     api_settings_post h (Some v) io = (PostError, h)) /\
  api_settings_post h None io = (PostError, h).
Proof.
  split; [|split].
  - intros v Hv. unfold api_settings_post. rewrite Hv.
    cbn beta iota. unfold merge_post. simpl.
    destruct io; reflexivity.
  - intros v Hv Hl. unfold api_settings_post. rewrite Hv.
    destruct v; try done. by destruct (Hl l).
  - reflexivity.
Qed.

Lemma api_settings_post_body_shapes_witness :
  api_settings_post (mk_hub ∅ None) (Some (JObj [])) SaveOk =
    (PostSuccess, mk_hub ∅ (Some (Some (dump ∅)))) /\
  api_settings_post (mk_hub ∅ None) (Some (JArr [JNull])) SaveOk =
    (PostError, mk_hub ∅ None).
Proof.
  destruct (api_settings_post_body_shapes (mk_hub ∅ None) SaveOk) as [H1 [H2 _]].
  split.
  - rewrite (H1 (JObj []) eq_refl). reflexivity.
  - apply H2; [reflexivity|discriminate].
Defined.

Definition secrets_sample : gmap string json :=
  <["weather_api_key" := JStr "k"]> ∅.

Lemma settings_echo_round_trip_witness :
  ("weather_api_key" ∉ (configured_key <$> sensitive_keys)) /\
  (settings (api_settings_post (mk_hub secrets_sample None)
              (Some (dump (api_settings_get secrets_sample))) SaveOk).2
    !! "weather_api_key" = Some (JStr "k")).
Proof.
  pose proof (settings_echo_round_trip (mk_hub secrets_sample None)) as H.
  destruct (api_settings_post _ _ _) as [r h'] eqn:E. simpl in *.
  destruct H as (_ & Hk & _).
  assert (Hn : "weather_api_key" ∉ (configured_key <$> sensitive_keys))
    by (apply (bool_decide_unpack _); vm_compute; exact I).
  split; [exact Hn|]. rewrite (Hk _ Hn). reflexivity.
Defined.

End SettingsExtras.

Module WeatherExtras.
Import Weather WeatherForecast.

(** The bounds every entry of the default forecast keeps. *)
Definition default_bounds (f : day_forecast) : Prop :=
  (temp_min f <= temp_avg f < temp_max f)%Z /\
  (0 <= precipitation_chance f < 80)%Z /\
  (65 <= humidity_avg f <= 84)%Z /\
  fc_icon f = "01d".

Lemma shift_date_none today j :
  shift_date today j = None <-> (999999999 < j \/ max_ordinal < today + j)%Z.
Proof.
  unfold shift_date.
  destruct (Z.leb_spec j 999999999), (Z.leb_spec (today + j) max_ordinal);
    cbn [andb]; split; intros Hx; try discriminate; try reflexivity; lia.
Qed.

Lemma default_day_bounds date i : default_bounds (default_day date i).
Proof.
  unfold default_day, default_bounds. destruct date as [[d dn] ds]. simpl.
  pose proof (Z.mod_pos_bound i 5 ltac:(lia)).
  pose proof (Z.mod_pos_bound i 6 ltac:(lia)).
  pose proof (Z.mod_pos_bound i 4 ltac:(lia)).
  pose proof (Z.mod_pos_bound i 20 ltac:(lia)).
  pose proof (Z.mod_pos_bound (i * 15) 80 ltac:(lia)).
  split; [lia|split; [lia|split; [lia|done]]].
Qed.

Lemma default_loop_some today fmt n i l :
  default_loop today fmt n i = Some l -> length l = n /\ Forall default_bounds l.
Proof.
  induction n as [|n IH] in i, l |- *; cbn [default_loop]; intros H.
  - injection H as <-. done.
  - destruct (shift_date today i) as [d|]; [|discriminate].
    destruct (default_loop today fmt n (i + 1)%Z) as [l'|] eqn:E; [|discriminate].
    injection H as <-. destruct (IH _ _ E) as [Hl Hf].
    split; [simpl; lia|]. constructor; [apply default_day_bounds|done].
Qed.

(** The dates only grow along the loop, so it stops exactly when its last
    date overflows. *)
Lemma default_loop_none today fmt n i :
  default_loop today fmt n i = None <->
  (0 < n)%nat /\ shift_date today (i + Z.of_nat n - 1) = None.
Proof.
  induction n as [|n IH] in i |- *; cbn [default_loop].
  - split; [discriminate|]. intros [Hn _]. lia.
  - rewrite shift_date_none.
    destruct (shift_date today i) as [d|] eqn:Ei.
    + assert (Hi : ~ (999999999 < i \/ max_ordinal < today + i)%Z).
      { rewrite <- shift_date_none. congruence. }
      specialize (IH (i + 1)%Z). rewrite shift_date_none in IH.
      destruct (default_loop today fmt n (i + 1)%Z) eqn:El.
      * split; [discriminate|]. intros [_ Hs].
        destruct n as [|n]; [lia|].
        assert (Hc : Some l = None) by (apply IH; split; lia). discriminate Hc.
      * split; [intros _|done]. destruct (proj1 IH eq_refl) as [Hn Hs].
        split; lia.
    + rewrite shift_date_none in Ei. split; [intros _|done]. split; lia.
Qed.

Lemma default_forecast_not_empty today fmt days :
  (0 < days)%Z -> default_forecast today fmt days <> Some [].
Proof.
  intros Hd. unfold default_forecast.
  destruct (Z.to_nat days) as [|n] eqn:E; [lia|]. cbn [default_loop].
  destruct (shift_date today 0); [|discriminate].
  destruct (default_loop today fmt n (0 + 1)%Z); discriminate.
Qed.

(** _get_default_forecast(days), run on a valid current date, raises
    OverflowError exactly when its last date would fall past 9999-12-31;
    otherwise it returns max(days, 0) entries, and in each one
    temp_min <= temp_avg < temp_max, the precipitation chance lies in
    [0, 80), the average humidity in [65, 84] and the icon is '01d'. *)
Theorem default_forecast_shape today fmt days :
  (1 <= today <= max_ordinal)%Z ->
  (forall l, default_forecast today fmt days = Some l ->
     length l = Z.to_nat days /\ Forall default_bounds l) /\
  (default_forecast today fmt days = None <-> (max_ordinal - today + 1 < days)%Z).
Proof.
  intros Ht. split.
  - intros l H. by apply default_loop_some in H.
  - unfold default_forecast. rewrite default_loop_none, shift_date_none.
    unfold max_ordinal in *. split; intros Hx; lia.
Qed.

Lemma default_forecast_shape_witness :
  (1 <= 739000 <= max_ordinal)%Z /\
  ((forall l, default_forecast 739000 (fun _ => ("", "", "")) 7 = Some l ->
      length l = Z.to_nat 7 /\ Forall default_bounds l) /\
   (default_forecast 739000 (fun _ => ("", "", "")) 7 = None <->
      (max_ordinal - 739000 + 1 < 7)%Z)).
Proof.
  assert (Ht : (1 <= 739000 <= max_ordinal)%Z) by (unfold max_ordinal; lia).
  split; [exact Ht|].
  exact (default_forecast_shape 739000 (fun _ => ("", "", "")) 7 Ht).
Defined.

(** On a fresh service (self.forecast == []) and for days > 0,
    get_forecast returns an empty forecast exactly when the source is
    'openweather', an API key is set, and the forecast request answers with
    a status other than 200 or with a 200 whose data yields no day. *)
Theorem fresh_forecast_empty ws http today fmt days :
  (0 < days)%Z ->
  (get_forecast ws [] http today fmt days).1 = Some [] <->
  is_source (weather_source ws) "openweather" = true /\
  truthy (api_key ws) = true /\
  ((exists code b, http = FcStatus code b /\ code <> 200%Z) \/
   http = FcStatus 200 (BuildOk [])).
Proof.
  intros Hd.
  pose proof (default_forecast_not_empty today fmt days Hd) as Hne.
  unfold get_forecast, get_openweather_forecast.
  destruct (is_source (weather_source ws) "openweather") eqn:S; cbn [negb fst].
  2:{ split; [done|]. intros (? & _). discriminate. }
  destruct (truthy (api_key ws)) eqn:K; cbn [negb fst].
  2:{ split; [done|]. intros (_ & ? & _). discriminate. }
  destruct http as [|code b]; cbn [negb fst].
  { split; [done|]. intros (_ & _ & [(? & ? & ? & _)|?]); discriminate. }
  destruct (Z.eqb_spec code 200) as [->|Hc]; cbn [negb fst].
  - destruct b as [l| |p]; cbn [negb fst].
    + split.
      * intros El. injection El as El. subst l.
        split; [done|split; [done|right; reflexivity]].
      * intros (_ & _ & [(c & b & E & Hc)|E]); [injection E as E1 E2; subst; done|].
        injection E as E1; subst; done.
    + split; [done|]. intros (_ & _ & [(c & b & E & Hc)|E]);
        [injection E as E1 E2; subst; done|discriminate].
    + split; [done|]. intros (_ & _ & [(c & b & E & Hc)|E]);
        [injection E as E1 E2; subst; done|discriminate].
  - split; [intros _; split; [done|split; [done|left; by exists code, b]]|done].
Qed.

Lemma fresh_forecast_empty_witness :
  (0 < 7)%Z /\
  ((get_forecast (mk_ws (JStr "key") (JStr "Brisbane") (JStr "openweather") ∅) []
      (FcStatus 500 BuildFailsBeforeReset) 739000 (fun _ => ("", "", "")) 7).1 = Some [] <->
   is_source (JStr "openweather") "openweather" = true /\
   truthy (JStr "key") = true /\
   ((exists code b, FcStatus 500 BuildFailsBeforeReset = FcStatus code b /\ code <> 200%Z) \/
    FcStatus 500 BuildFailsBeforeReset = FcStatus 200 (BuildOk []))).
Proof.
  split; [lia|].
  exact (fresh_forecast_empty (mk_ws (JStr "key") (JStr "Brisbane") (JStr "openweather") ∅)
           (FcStatus 500 BuildFailsBeforeReset) 739000 (fun _ => ("", "", "")) 7 ltac:(lia)).
Defined.

(** get_weather_alerts raises no alert when the reading is not live
    OpenWeatherMap data: when the source is not 'openweather', when no API
    key is set, or when the request answers with a non-200 status before
    any success (the cached reading is still {}). *)
Theorem alerts_only_from_live_data ws location http fmt now now6h now3h :
  (is_source (weather_source ws) "openweather" = false \/
   truthy (api_key ws) = false \/
   (current_weather ws = ∅ /\ exists code p, http = HttpStatus code p /\ code <> 200%Z)) ->
  (get_weather_alerts ws location http fmt now now6h now3h).1 = Some [].
Proof.
  intros H. unfold get_weather_alerts, get_current.
  set (loc := if truthy location then location else ws_location ws).
  destruct (is_source (weather_source ws) "openweather") eqn:S.
  - unfold get_openweather_current.
    destruct (truthy (api_key ws)) eqn:K; simpl.
    + destruct H as [H|[H|(E & code & p & -> & Hc)]]; try congruence.
      simpl. rewrite (proj2 (Z.eqb_neq code 200) Hc). simpl. rewrite E.
      reflexivity.
    + vm_compute. reflexivity.
  - destruct (is_source (weather_source ws) "qld_radar"); vm_compute; reflexivity.
Qed.

Lemma alerts_only_from_live_data_witness :
  (is_source (JStr "qld_radar") "openweather" = false \/
   truthy (JStr "") = false \/
   (∅ = (∅ : gmap string json) /\ exists code p, HttpRaises = HttpStatus code p /\ code <> 200%Z)) /\
  (get_weather_alerts (mk_ws (JStr "") (JStr "Brisbane") (JStr "qld_radar") ∅)
     JNull HttpRaises (fun _ => "") "t" "t6" "t3").1 = Some [].
Proof.
  split; [left; reflexivity|].
  apply (alerts_only_from_live_data (mk_ws (JStr "") (JStr "Brisbane") (JStr "qld_radar") ∅)).
  left. reflexivity.
Defined.

End WeatherExtras.

Module PhotoExtras.
Import Settings PhotoService.
Import Weather(dict_get).

Lemma save_copy_ok h ups :
  settings (save_copy_with h ups SaveOk) =
  fold_left (fun m kv => <[kv.1 := kv.2]> m) ups (settings h).
Proof. reflexivity. Qed.


(** refresh_access_token returns False without calling the token endpoint,
    and changes neither the settings nor the token expiry, when no truthy
    refresh token is stored or GOOGLE_CLIENT_ID or GOOGLE_CLIENT_SECRET is
    empty. *)
Theorem refresh_without_credentials c h expiry deadline resp io :
  truthy (dict_get (settings h) "google_photos_refresh_token" (JStr "")) = false \/
  client_id c = "" \/ client_secret c = "" ->
  refresh_access_token c h expiry deadline resp io = (false, h, expiry, false).
Proof.
  intros H. unfold refresh_access_token.
  destruct H as [H|[H|H]].
  - by rewrite H.
  - destruct (truthy _); [|done]. cbn [negb]. rewrite H. reflexivity.
  - destruct (truthy _); [|done]. cbn [negb]. rewrite H, orb_true_r. reflexivity.
Qed.

Lemma refresh_without_credentials_witness :
  (truthy (dict_get (settings (mk_hub ∅ None)) "google_photos_refresh_token" (JStr "")) = false \/
   client_id (mk_creds "id" "secret") = "" \/ client_secret (mk_creds "id" "secret") = "") /\
  refresh_access_token (mk_creds "id" "secret") (mk_hub ∅ None) None (fun _ => None)
    TokTimeout SaveOk = (false, mk_hub ∅ None, None, false).
Proof.
  split; [left; reflexivity|].
  apply refresh_without_credentials. left. reflexivity.
Defined.



Definition connected_hub : hub :=
  mk_hub (<["google_photos_refresh_token" := JStr "r"]>
          (<["google_photos_connected" := JBool true]> ∅)) None.


(** A 400 answer of the token endpoint whose error body mentions
    'invalid_grant' makes refresh_access_token return False after calling
    _disconnect. *)
Theorem refresh_invalid_grant_disconnects c h expiry deadline l io :
  truthy (dict_get (settings h) "google_photos_refresh_token" (JStr "")) = true ->
  client_id c <> "" -> client_secret c <> "" ->
  mentions "invalid_grant" (JObj l) = true ->
  refresh_access_token c h expiry deadline (TokStatus 400 false (Some (JObj l))) io =
  (false, disconnect h io, expiry, true).
Proof.
  intros Hr Hi Hs Hm. unfold refresh_access_token.
  rewrite Hr. cbn [negb].
  rewrite (proj2 (String.eqb_neq _ _) Hi), (proj2 (String.eqb_neq _ _) Hs).
  cbn [orb]. cbn beta iota. rewrite Hm. reflexivity.
Qed.

Lemma refresh_invalid_grant_disconnects_witness :
  refresh_access_token (mk_creds "id" "secret") connected_hub None (fun _ => None)
    (TokStatus 400 false (Some (JObj [("error", JStr "invalid_grant")]))) SaveOk =
  (false, disconnect connected_hub SaveOk, None, true).
Proof.
  apply refresh_invalid_grant_disconnects;
    (reflexivity || discriminate).
Defined.

(** After a successful _disconnect (or POST /api/google_photos/disconnect),
    is_connected() is false, the stored access token is '', so every
    _make_request answers 401 without calling the API, and the keys other
    than the four it clears keep their values. *)
Theorem disconnect_clears_connection h :
  let h' := disconnect h SaveOk in
  is_connected h' = false /\
  dict_get (settings h') "google_photos_access_token" (JStr "") = JStr "" /\
  (forall tok, dict_get (settings h') "google_photos_access_token" (JStr "") = JStr tok ->
     forall expired refresh resp,
       Photos.make_request tok expired refresh resp =
       (Photos.mk_result false 401, [])) /\
  (forall k, k ∉ disconnect_updates.*1 -> settings h' !! k = settings h !! k).
Proof.
  cbn zeta. unfold disconnect, is_connected. rewrite !save_copy_ok.
  cbn [disconnect_updates fold_left fst snd].
  assert (Ha : dict_get (<["google_photos_album":=JStr ""]>
                (<["google_photos_refresh_token":=JStr ""]>
                 (<["google_photos_access_token":=JStr ""]>
                  (<["google_photos_connected":=JBool false]> (settings h)))))
                "google_photos_access_token" (JStr "") = JStr "").
  { unfold dict_get. rewrite !lookup_insert_ne by done. by rewrite lookup_insert_eq. }
  split; [|split; [exact Ha|split]].
  - rewrite Ha. unfold dict_get.
    rewrite !lookup_insert_ne by done. by rewrite lookup_insert_eq.
  - intros tok Ht. rewrite Ha in Ht. injection Ht as <-. reflexivity.
  - intros k Hk. cbn in Hk.
    apply not_elem_of_cons in Hk as [H1 Hk].
    apply not_elem_of_cons in Hk as [H2 Hk].
    apply not_elem_of_cons in Hk as [H3 Hk].
    apply not_elem_of_cons in Hk as [H4 _].
    by rewrite !lookup_insert_ne.
Qed.

End PhotoExtras.

Module AlbumExtras.
Import PhotoService.

Definition image_photo (p : album_photo) : Prop :=
  (exists s, p_mime p = JStr s /\ String.prefix "image/" s = true) /\
  (exists base, p_url p = base +:+ "=w1920-h1080").

Lemma album_item_some item p :
  album_item item = Some (Some p) -> image_photo p /\ is_image item = true.
Proof.
  unfold album_item, is_image. intros H.
  destruct (py_get item "mimeType" (JStr "")) as [mt|]; [|discriminate].
  destruct mt as [| | |s| |]; cbn [py_startswith] in *; try discriminate.
  destruct (String.prefix "image/" s) eqn:Hp; [|discriminate].
  destruct item as [| | | | |l]; try discriminate.
  destruct (dict_of_pairs l !! "id"); [|discriminate].
  destruct (dict_of_pairs l !! "baseUrl") as [[| | |base| |]|]; try discriminate.
  destruct (py_get _ "creationTime" _); [|discriminate].
  injection H as <-. split; [|done].
  split; [by exists s|by exists base].
Qed.

Lemma album_item_none item :
  album_item item = Some None -> is_image item = false.
Proof.
  unfold album_item, is_image. intros H.
  destruct (py_get item "mimeType" (JStr "")) as [mt|]; [|discriminate].
  destruct (py_startswith mt "image/") as [[|]|]; try done.
  destruct item as [| | | | |l]; try discriminate.
  destruct (dict_of_pairs l !! "id"); [|discriminate].
  destruct (dict_of_pairs l !! "baseUrl") as [[| | | | |]|]; try discriminate.
  destruct (py_get _ "creationTime" _); discriminate.
Qed.

Lemma album_items_spec items ps :
  album_items items = Some ps ->
  Forall image_photo ps /\ length ps = length (filter is_image items).
Proof.
  revert ps. induction items as [|it rest IH]; intros ps H.
  - injection H as <-. done.
  - cbn [album_items] in H.
    destruct (album_item it) as [o|] eqn:Ei; [|discriminate].
    destruct (album_items rest) as [ps'|]; [|discriminate].
    destruct (IH ps' eq_refl) as [Hf Hl].
    injection H as <-. destruct o as [p|].
    + destruct (album_item_some it p Ei) as [Hp Hi].
      rewrite filter_cons, Hi. simpl. split; [by constructor|lia].
    + rewrite filter_cons, (album_item_none it Ei). done.
Qed.

(** When get_photos_from_album returns a photo list, the album id was
    truthy and exactly one search body ({albumId, pageSize: 100}) was sent;
    every photo has a string mimeType starting with 'image/' and a url
    ending in '=w1920-h1080'; and there is one photo per image item of the
    answer's 'mediaItems'. *)
Theorem album_photos_are_images album request ps sent :
  get_photos_from_album album request = (PhotosOk ps, sent) ->
  truthy album = true /\
  sent = [JObj [("albumId", album); ("pageSize", JNum 100)]] /\
  Forall image_photo ps /\
  exists data mi items,
    request (JObj [("albumId", album); ("pageSize", JNum 100)]) = ReqData data /\
    py_get data "mediaItems" (JArr []) = Some mi /\
    py_iter mi = Some items /\
    length ps = length (filter is_image items).
Proof.
  unfold get_photos_from_album. intros H.
  destruct (truthy album) eqn:Ht; cbn [negb] in H; [|discriminate].
  destruct (request _) as [s|data] eqn:Er; [discriminate|].
  destruct (py_get data "mediaItems" (JArr [])) as [mi|] eqn:Em; [|discriminate].
  destruct (py_iter mi) as [items|] eqn:Ei; [|discriminate].
  destruct (album_items items) as [ps'|] eqn:Ea; [|discriminate].
  injection H as <- <-.
  destruct (album_items_spec items ps' Ea) as [Hf Hl].
  split; [done|split; [done|split; [done|]]].
  by exists data, mi, items.
Qed.

Definition album_answer : json :=
  JObj [("mediaItems",
         JArr [JObj [("id", JStr "a"); ("baseUrl", JStr "https://x/a");
                     ("mimeType", JStr "image/jpeg")];
               JObj [("id", JStr "b"); ("baseUrl", JStr "https://x/b");
                     ("mimeType", JStr "video/mp4")]])].

Lemma album_photos_are_images_witness :
  exists ps, get_photos_from_album (JStr "alb") (fun _ => ReqData album_answer) =
             (PhotosOk ps, [JObj [("albumId", JStr "alb"); ("pageSize", JNum 100)]]) /\
  truthy (JStr "alb") = true /\
  [JObj [("albumId", JStr "alb"); ("pageSize", JNum 100)]] =
    [JObj [("albumId", JStr "alb"); ("pageSize", JNum 100)]] /\
  Forall image_photo ps /\
  exists data mi items,
    ReqData album_answer = ReqData data /\
    py_get data "mediaItems" (JArr []) = Some mi /\
    py_iter mi = Some items /\
    length ps = length (filter is_image items).
Proof.
  eexists. split; [vm_compute; reflexivity|].
  exact (album_photos_are_images (JStr "alb") (fun _ => ReqData album_answer) _ _
           ltac:(vm_compute; reflexivity)).
Defined.

End AlbumExtras.

Module SharedAlbumExtras.
Import SharedAlbum.

Lemma photos_of_spec found :
  Forall (fun p => exists u, u ∈ found /\ (80 < py_len u)%nat /\ p = shared_photo_of u)
    (photos_of found).
Proof.
  unfold photos_of. apply Forall_forall. intros p Hp.
  apply list_elem_of_fmap in Hp as [u [-> Hu]].
  apply list_elem_of_filter in Hu as [Hl Hu].
  exists u. split; [done|]. split; [|done].
  apply Nat.ltb_lt. by apply Is_true_true.
Qed.

(** When fetch_shared_album_photos succeeds, the URL was non-empty, the
    page was requested and answered 200, the count is the (positive)
    length of the list, and every photo is built from a matched URL longer
    than 80 characters, cut at its first '=' and given the size suffixes;
    the data-attribute matches are used only when the primary pattern
    gives no such URL. *)
Theorem shared_album_success url page ps n requested :
  fetch_shared_album_photos url page = (SharedOk ps n, requested) ->
  url <> "" /\ requested = true /\ n = length ps /\ (0 < n)%nat /\
  exists found found_alt, page = PageStatus 200 found found_alt /\
    (ps = photos_of found \/ (photos_of found = [] /\ ps = photos_of found_alt)) /\
    Forall (fun p => exists u, (u ∈ found \/ u ∈ found_alt) /\ (80 < py_len u)%nat /\
                               sp_url p = split_first "="%char u +:+ "=w1280-h720" /\
                               sp_url_hd p = split_first "="%char u +:+ "=w1920-h1080" /\
                               sp_source p = "shared_album") ps.
Proof.
  unfold fetch_shared_album_photos. intros H.
  destruct url as [|c url']; [discriminate|].
  destruct page as [| |code found found_alt]; try discriminate.
  destruct (Z.eqb_spec code 200) as [->|]; cbn [negb] in H; [|discriminate].
  assert (Hw : forall found',
    (forall u, u ∈ found' -> u ∈ found \/ u ∈ found_alt) ->
    Forall (fun p => exists u, (u ∈ found \/ u ∈ found_alt) /\ (80 < py_len u)%nat /\
                               sp_url p = split_first "="%char u +:+ "=w1280-h720" /\
                               sp_url_hd p = split_first "="%char u +:+ "=w1920-h1080" /\
                               sp_source p = "shared_album") (photos_of found')).
  { intros found' Hin. eapply Forall_impl; [apply photos_of_spec|].
    intros p [u [Hu [Hl ->]]]. exists u. auto 6. }
  split; [done|].
  destruct (photos_of found) as [|p ps1] eqn:E1.
  - destruct (photos_of found_alt) as [|q ps2] eqn:E2; [discriminate|].
    injection H as <- <- <-.
    split; [done|split; [done|split; [simpl; lia|]]].
    exists found, found_alt. split; [done|]. split; [by right|].
    rewrite <- E2. apply Hw. auto.
  - injection H as <- <- <-.
    split; [done|split; [done|split; [simpl; lia|]]].
    exists found, found_alt. split; [done|]. split; [by left|].
    rewrite <- E1. apply Hw. auto.
Qed.

Definition long_url : string :=
  "https://lh3.googleusercontent.com/pw/AP1GczN0abcdefghijklmnopqrstuvwxyz0123456789ABCDEFGHIJ=w400-h300".

Lemma shared_album_success_witness :
  exists ps n,
  fetch_shared_album_photos "https://photos.app.goo.gl/abc"
    (PageStatus 200 [long_url; "https://lh3.googleusercontent.com/short"] []) =
    (SharedOk ps n, true) /\
  ("https://photos.app.goo.gl/abc" <> "" /\ true = true /\ n = length ps /\ (0 < n)%nat /\
  exists found found_alt,
    PageStatus 200 [long_url; "https://lh3.googleusercontent.com/short"] [] =
      PageStatus 200 found found_alt /\
    (ps = photos_of found \/ (photos_of found = [] /\ ps = photos_of found_alt)) /\
    Forall (fun p => exists u, (u ∈ found \/ u ∈ found_alt) /\ (80 < py_len u)%nat /\
                               sp_url p = split_first "="%char u +:+ "=w1280-h720" /\
                               sp_url_hd p = split_first "="%char u +:+ "=w1920-h1080" /\
                               sp_source p = "shared_album") ps).
Proof.
  do 2 eexists. split; [vm_compute; reflexivity|].
  exact (shared_album_success "https://photos.app.goo.gl/abc"
           (PageStatus 200 [long_url; "https://lh3.googleusercontent.com/short"] [])
           _ _ true ltac:(vm_compute; reflexivity)).
Defined.

End SharedAlbumExtras.

Module VoiceLoopExtras.
Import Voice VoiceLoop.

(** Every iteration of main() starts by listening and ends with
    time.sleep(1); a transcript without 'hey bing' does nothing else; and
    the only HTTP request, the POST to the Flask /update_url endpoint with
    the command's URL, happens only after the wake word, for a command of
    the table. *)
Theorem main_iteration_shape wake command post :
  let t := main_iteration wake command post in
  head t = Some Listen /\ last t = Some (SleepSecs 1) /\
  (str_contains "hey bing" wake = false -> t = [Listen; SleepSecs 1]) /\
  (forall url p, In (Effect (HttpPost url p)) t ->
     str_contains "hey bing" wake = true /\ url = flask_url /\
     exists u, lookup_command command commands = Some u /\ p = [("url", u)]).
Proof.
  cbn zeta. unfold main_iteration.
  split; [done|]. split; [by rewrite last_cons, last_app|].
  split; [intros ->; done|].
  intros url p Hin.
  destruct (str_contains "hey bing" wake) eqn:Hw.
  2:{ simpl in Hin. destruct Hin as [Hc|[Hc|[]]]; discriminate Hc. }
  split; [done|].
  cbn [app] in Hin.
  destruct Hin as [Hc|[Hc|[Hc|Hin]]]; try discriminate Hc.
  apply in_app_or in Hin as [Hin|[Hc|[]]]; [|discriminate Hc].
  destruct command as [|c cmd]; [destruct Hin|].
  apply in_map_iff in Hin as [e [He Hin]].
  injection He as ->.
  unfold execute_command in Hin.
  destruct (lookup_command (String c cmd) commands) as [u|].
  - destruct Hin as [Hc|Hin].
    + injection Hc as <- <-. split; [done|]. by exists u.
    + destruct post; simpl in Hin;
        destruct Hin as [Hc|[Hc|[]]]; discriminate Hc.
  - simpl in Hin. destruct Hin as [Hc|[Hc|[]]]; discriminate Hc.
Qed.

End VoiceLoopExtras.
